(** * foodrag: the ingestion step and the answer pipeline of [rag_run.py]

    A shallow embedding of [rag_run.py]: the corpus records and their
    enriched text, the embedding client [get_embedding], the ingestion
    script that reconciles [foods.json] with the Chroma collection, and the
    question pipeline [ask_question] / [_process_question].

    Python strings are [string]s holding the UTF-8 bytes of the text.  The
    two HTTP services and the vector store are the environment: the services
    are oracles answering each request, the store is a finite map from ids
    to (document, embedding).  Every effect the script performs (printing,
    an HTTP request, a store call, a widget update) is recorded in a log, so
    that statements such as "the generation service is never called" are
    statements about the log. *)

From Stdlib Require Import QArith.
From stdpp Require Import gmap strings list fin_maps sorting pretty.

Local Open Scope Z_scope.
Local Open Scope stdpp_scope.
Set Warnings "-register-all,-clear-no-such-hyp".

(** ** Constants of the script *)

Definition EMBED_MODEL : string := "mxbai-embed-large".
Definition LLM_MODEL : string := "llama3.2".
Definition EMBED_URL : string := "http://localhost:11434/api/embeddings".
Definition GENERATE_URL : string := "http://localhost:11434/api/generate".

(** ** Strings *)

Definition NL : string := String (Ascii.ascii_of_N 10) "".

(** [s * n] *)
Fixpoint str_repeat (s : string) (n : nat) : string :=
  match n with
  | O => ""
  | S n' => s +:+ str_repeat s n'
  end.

(** [sep.join(parts)] *)
Fixpoint join (sep : string) (parts : list string) : string :=
  match parts with
  | [] => ""
  | [p] => p
  | p :: rest => p +:+ sep +:+ join sep rest
  end.

(** [str.strip()] removes the characters for which [str.isspace] holds:
    U+0009..U+000D, U+001C..U+0020, U+0085, U+00A0, U+1680, U+2000..U+200A,
    U+2028, U+2029, U+202F, U+205F and U+3000.  On the UTF-8 bytes these are
    the one-byte characters below and the two- and three-byte sequences
    recognised by [space2] and [space3]. *)
Definition byte (c : Ascii.ascii) : N := Ascii.N_of_ascii c.

Definition space1 (c : Ascii.ascii) : bool :=
  let n := byte c in
  ((9 <=? n) && (n <=? 13) || (28 <=? n) && (n <=? 32))%N.

Definition space2 (c d : Ascii.ascii) : bool :=
  ((byte c =? 194) && ((byte d =? 133) || (byte d =? 160)))%N.

Definition space3 (c d e : Ascii.ascii) : bool :=
  ((byte c =? 225) && (byte d =? 154) && (byte e =? 128)
   || (byte c =? 226) && (byte d =? 128)
        && ((128 <=? byte e) && (byte e <=? 138)
            || (byte e =? 168) || (byte e =? 169) || (byte e =? 175))
   || (byte c =? 226) && (byte d =? 129) && (byte e =? 159)
   || (byte c =? 227) && (byte d =? 128) && (byte e =? 128))%N.

Fixpoint lstrip (s : string) : string :=
  match s with
  | EmptyString => EmptyString
  | String c r =>
      if space1 c then lstrip r else
      match r with
      | EmptyString => s
      | String d r1 =>
          if space2 c d then lstrip r1 else
          match r1 with
          | EmptyString => s
          | String e r2 => if space3 c d e then lstrip r2 else s
          end
      end
  end.

(** A suffix of well-formed UTF-8 text that starts with one of the byte
    sequences above starts at a character boundary, so testing every suffix
    with [lstrip] removes exactly the trailing whitespace characters. *)
Fixpoint rstrip (s : string) : string :=
  match s with
  | EmptyString => EmptyString
  | String c r =>
      match lstrip s with
      | EmptyString => EmptyString
      | String _ _ => String c (rstrip r)
      end
  end.

Definition strip (s : string) : string := rstrip (lstrip s).

(** ** JSON values

    What [response.json()] returns.  A float keeps its literal: the script
    performs no arithmetic on vectors, it only passes them along. *)

Inductive json : Type :=
  | JNull
  | JBool (b : bool)
  | JInt (n : Z)
  | JFloat (literal : string)
  | JStr (s : string)
  | JArr (items : list json)
  | JObj (fields : list (string * json)).

(** [d[key]] on the fields of a parsed object. *)
Fixpoint obj_lookup (key : string) (fields : list (string * json)) : option json :=
  match fields with
  | [] => None
  | (k, v) :: rest => if String.eqb k key then Some v else obj_lookup key rest
  end.

(** ** Corpus records

    One element of [food_data].  [item['id']] and [item['text']] are always
    read; ["region" in item] and ["type" in item] test the presence of a
    key, so the two optional attributes are options. *)

Record Item : Type := mkItem {
  item_id : string;
  item_text : string;
  item_region : option string;
  item_type : option string
}.

(** Lines 60-64: the text that is sent to the embedding service. *)
Definition enriched_text (item : Item) : string :=
  let enriched := item_text item in
  let enriched :=
    match item_region item with
    | Some region => enriched +:+ " This food is popular in " +:+ region +:+ "."
    | None => enriched
    end in
  let enriched :=
    match item_type item with
    | Some type => enriched +:+ " It is a type of " +:+ type +:+ "."
    | None => enriched
    end in
  enriched.

(** The clauses as the data model words them: one per present attribute,
    nothing for an absent one. *)
Definition region_clause (item : Item) : string :=
  match item_region item with
  | Some region => " This food is popular in " +:+ region +:+ "."
  | None => ""
  end.

Definition type_clause (item : Item) : string :=
  match item_type item with
  | Some type => " It is a type of " +:+ type +:+ "."
  | None => ""
  end.

(** ** Exceptions

    The classes that the three [except] clauses tell apart.  In [requests],
    [ConnectTimeout] derives from both [ConnectionError] and [Timeout] and
    [ReadTimeout] from [Timeout]; all classes here derive from [Exception].
    [SystemExit] does not: it is a separate outcome ([Exited]) below. *)

Inductive ExcClass : Type :=
  | ConnectionError
  | Timeout
  | ConnectTimeout
  | ReadTimeout
  | HTTPError
  | JSONDecodeError
  | KeyError
  | TypeError
  | AttributeError
  | DuplicateIDError
  | OtherException.

Record PyExc : Type := mkExc { exc_class : ExcClass; exc_str : string }.

Definition is_ConnectionError (c : ExcClass) : bool :=
  match c with
  | ConnectionError | ConnectTimeout => true
  | _ => false
  end.

Definition is_Timeout (c : ExcClass) : bool :=
  match c with
  | Timeout | ConnectTimeout | ReadTimeout => true
  | _ => false
  end.

(** ** The environment *)

Inductive Event : Type :=
  | Print (line : string)
  | EmbedRequest (model prompt : string)        (* POST EMBED_URL, timeout=30 *)
  | GenerateRequest (model prompt : string)     (* POST GENERATE_URL, stream False, timeout=60 *)
  | CollectionGet
  | CollectionAdd (id document : string) (embedding : json)
  | CollectionQuery (embedding : json) (n_results : nat)
  | StatusLabel (text : string)
  | RootUpdate
  | AskButton (enabled : bool)
  | ShowWarning (title message : string)
  | ShowError (title message : string)
  | OutputInsert (text : string)
  | OutputSee
  | EntryDelete
  | ThreadStart (question : string).

Inductive Body : Type :=
  | Parsed (value : json)
  | Malformed (decoder_message : string).

Record Response : Type := mkResponse {
  status_code : Z;
  reason : string;
  body : Body
}.

(** What [requests.post] does with one request: it raises, or it returns a
    response. *)
Inductive HttpReply : Type :=
  | TransportError (e : PyExc)
  | HttpResponse (r : Response).

(** What [collection.add] does with an id that is already stored. *)
Inductive DupPolicy : Type :=
  | DupRaise
  | DupIgnore.

(** The services answer a request knowing everything that happened before it
    in the run, so a service may fail on one call and succeed on the next. *)
Record Env : Type := mkEnv {
  embed_service : list Event → string → HttpReply;
  generate_service : list Event → string → HttpReply;
  dup_policy : DupPolicy;
  distance : json → json → Q
}.

Abbreviation Collection := (gmap string (string * json)).

Record World : Type := mkWorld {
  w_coll : Collection;
  w_log : list Event
}.

Definition record (e : Event) (w : World) : World :=
  {| w_coll := w_coll w; w_log := w_log w ++ [e] |}.

Definition store (id document : string) (embedding : json) (w : World) : World :=
  {| w_coll := <[id := (document, embedding)]> (w_coll w); w_log := w_log w |}.

(** A process starts with an empty log on the persisted collection. *)
Definition start (coll : Collection) : World := {| w_coll := coll; w_log := [] |}.

(** ** Computations

    A statement returns, raises an exception, or leaves through
    [sys.exit(code)]. *)

Inductive Result (A : Type) : Type :=
  | Returned (a : A)
  | Raised (e : PyExc)
  | Exited (code : Z).
Arguments Returned {A} a.
Arguments Raised {A} e.
Arguments Exited {A} code.

Definition Py (A : Type) : Type := World → Result A * World.

#[global] Instance Py_ret : MRet Py := λ A a w, (Returned a, w).

#[global] Instance Py_bind : MBind Py := λ A B f m w,
  match m w with
  | (Returned a, w') => f a w'
  | (Raised e, w') => (Raised e, w')
  | (Exited code, w') => (Exited code, w')
  end.

Definition emit (e : Event) : Py unit := λ w, (Returned tt, record e w).
Definition print (line : string) : Py unit := emit (Print line).
Definition raise {A} (e : PyExc) : Py A := λ w, (Raised e, w).
Definition sys_exit {A} (code : Z) : Py A := λ w, (Exited code, w).

(** [try: body except ...: handler].  The clauses of the script end with
    [except Exception], which every [Raised] exception matches; [SystemExit]
    passes through untouched. *)
Definition try_except {A} (body : Py A) (handler : PyExc → Py A) : Py A := λ w,
  match body w with
  | (Raised e, w') => handler e w'
  | (Returned a, w') => (Returned a, w')
  | (Exited code, w') => (Exited code, w')
  end.

(** The clause that handles an exception: the first one, in source order,
    whose class it is an instance of. *)
Definition except_clauses {A} (on_connection on_timeout : Py A)
    (on_exception : PyExc → Py A) (e : PyExc) : Py A :=
  if is_ConnectionError (exc_class e) then on_connection
  else if is_Timeout (exc_class e) then on_timeout
  else on_exception e.

(** [for x in l: body] *)
Fixpoint for_each {A} (l : list A) (body : A → Py unit) : Py unit :=
  match l with
  | [] => mret tt
  | x :: rest => body x ;; for_each rest body
  end.

(** ** HTTP *)

Definition post_embeddings (env : Env) (text : string) : Py Response := λ w,
  let w' := record (EmbedRequest EMBED_MODEL text) w in
  match embed_service env (w_log w) text with
  | TransportError e => (Raised e, w')
  | HttpResponse r => (Returned r, w')
  end.

Definition post_generate (env : Env) (prompt : string) : Py Response := λ w,
  let w' := record (GenerateRequest LLM_MODEL prompt) w in
  match generate_service env (w_log w) prompt with
  | TransportError e => (Raised e, w')
  | HttpResponse r => (Returned r, w')
  end.

Definition is_http_error (status : Z) : bool := (400 <=? status) && (status <? 600).

(** [response.raise_for_status()], with the message [requests] builds. *)
Definition raise_for_status (url : string) (r : Response) : Py unit :=
  if is_http_error (status_code r) then
    raise (mkExc HTTPError
             (pretty (status_code r)
              +:+ (if status_code r <? 500 then " Client Error: " else " Server Error: ")
              +:+ reason r +:+ " for url: " +:+ url))
  else mret tt.

(** [response.json()] *)
Definition response_json (r : Response) : Py json :=
  match body r with
  | Parsed value => mret value
  | Malformed msg => raise (mkExc JSONDecodeError msg)
  end.

(** [value[key]] for a string key (messages of CPython 3.12). *)
Definition getitem (value : json) (key : string) : Py json :=
  match value with
  | JObj fields =>
      match obj_lookup key fields with
      | Some v => mret v
      | None => raise (mkExc KeyError ("'" +:+ key +:+ "'"))
      end
  | JArr _ => raise (mkExc TypeError "list indices must be integers or slices, not str")
  | JStr _ => raise (mkExc TypeError "string indices must be integers, not 'str'")
  | JNull => raise (mkExc TypeError "'NoneType' object is not subscriptable")
  | JBool _ => raise (mkExc TypeError "'bool' object is not subscriptable")
  | JInt _ => raise (mkExc TypeError "'int' object is not subscriptable")
  | JFloat _ => raise (mkExc TypeError "'float' object is not subscriptable")
  end.

(** [value.strip()] (messages of CPython 3.12). *)
Definition json_strip (value : json) : Py string :=
  match value with
  | JStr s => mret (strip s)
  | JObj _ => raise (mkExc AttributeError "'dict' object has no attribute 'strip'")
  | JArr _ => raise (mkExc AttributeError "'list' object has no attribute 'strip'")
  | JNull => raise (mkExc AttributeError "'NoneType' object has no attribute 'strip'")
  | JBool _ => raise (mkExc AttributeError "'bool' object has no attribute 'strip'")
  | JInt _ => raise (mkExc AttributeError "'int' object has no attribute 'strip'")
  | JFloat _ => raise (mkExc AttributeError "'float' object has no attribute 'strip'")
  end.

(** ** The embedding client (lines 33-50) *)

(** The three [except] clauses, lines 41-50. *)
Definition embedding_failed : PyExc → Py json :=
  except_clauses
    (print "❌ Error: Cannot connect to Ollama at http://localhost:11434";;
     print "   Please ensure Ollama is running. Start it with: ollama serve";;
     sys_exit 1)
    (print "❌ Error: Request to Ollama timed out";;
     sys_exit 1)
    (λ e,
     print ("❌ Error getting embedding: " +:+ exc_str e);;
     sys_exit 1).

Definition get_embedding (env : Env) (text : string) : Py json :=
  try_except
    (response ← post_embeddings env text;
     raise_for_status EMBED_URL response;;
     value ← response_json response;
     getitem value "embedding")
    embedding_failed.

(** ** The document index

    The collection is Chroma's (third-party, not part of the script).  The
    script uses three of its operations; they are modelled from the contract
    of section 4.2 of the spec on a finite map from ids to (document,
    embedding).  What the store does with an id it already holds is left open
    there ("undefined/an error surface"): it is refused ([DupRaise]) or skipped
    ([DupIgnore]), as the environment says.  An embedding that the store does
    not accept (section 3: a dimension mismatch "surfaces as a downstream
    store/query error") is no part of that contract and is left out.  A
    statement made of a run that returned, or of a run that posted its prompt,
    does not depend on this. *)

(** Modelled from the spec: [collection.get()['ids']], missing from the
    sources; section 4.2, [listIds]: "returns every id currently stored",
    reflecting all prior successful inserts. *)
Definition collection_get_ids : Py (gset string) := λ w,
  (Returned (dom (w_coll w)), record CollectionGet w).

(** Modelled from the spec:
    [collection.add(documents=[document], embeddings=[embedding], ids=[id])],
    missing from the sources; section 4.2, [insert(id, text, embedding)]: the
    index itself does not dedupe, a duplicate id is an error surface of the
    underlying store. *)
Definition collection_add (env : Env) (id document : string) (embedding : json)
    : Py unit := λ w,
  let w' := record (CollectionAdd id document embedding) w in
  match w_coll w !! id with
  | None => (Returned tt, store id document embedding w')
  | Some _ =>
      match dup_policy env with
      | DupRaise => (Raised (mkExc DuplicateIDError id), w')
      | DupIgnore => (Returned tt, w')
      end
  end.

#[global] Instance Qle_decision (x y : Q) : Decision (Qle x y) :=
  Z.le_dec (Qnum x * QDen y) (Qnum y * QDen x).

(** [a] is ranked before [b] for the query vector [q].  The distance is the
    collection's; its values are finite floats, taken here as rationals. *)
Definition closer (env : Env) (q : json) (a b : string * (string * json)) : Prop :=
  Qle (distance env q (snd (snd a))) (distance env q (snd (snd b))).

#[global] Instance closer_decision env q a b : Decision (closer env q a b) :=
  Qle_decision _ _.

(** Modelled from the spec: the result of a nearest-neighbour query, missing
    from the sources; section 4.2, [query(embedding, k)]: "the k nearest stored
    entries by vector distance, ranked ascending by distance (most similar
    first)", and with fewer than k entries "all available entries, no
    error". *)
Definition nearest (env : Env) (coll : Collection) (q : json) (k : nat)
    : list (string * (string * json)) :=
  take k (merge_sort (closer env q) (map_to_list coll)).

(** Modelled from the spec:
    [collection.query(query_embeddings=[embedding], n_results=k)], missing from
    the sources, with the ranked (id, (document, embedding)) entries for the
    one query vector; section 4.2, [query]. *)
Definition collection_query (env : Env) (embedding : json) (k : nat)
    : Py (list (string * (string * json))) := λ w,
  (Returned (nearest env (w_coll w) embedding k),
   record (CollectionQuery embedding k) w).

(** ** The ingestion step (lines 52-74) *)

Definition new_items (food_data : list Item) (existing_ids : gset string) : list Item :=
  filter (λ item, item_id item ∉ existing_ids) food_data.

(** The body of the loop, lines 59-72. *)
Definition ingest_item (env : Env) (item : Item) : Py unit :=
  emb ← get_embedding env (enriched_text item);
  collection_add env (item_id item) (item_text item) emb.

Definition ingestion (env : Env) (food_data : list Item) : Py unit :=
  existing_ids ← collection_get_ids;
  let new := new_items food_data existing_ids in
  match new with
  | _ :: _ =>
      print ("🆕 Adding " +:+ pretty (length new) +:+ " new documents to Chroma...");;
      for_each new (ingest_item env)
  | [] => print "✅ All documents already in ChromaDB."
  end.

(** One run of the script up to the start of the GUI: a fresh process on the
    persisted collection. *)
Definition run_ingestion (env : Env) (food_data : list Item) (coll : Collection)
    : Result unit * World :=
  ingestion env food_data (start coll).

(** ** The answer pipeline (lines 131-204) *)

(** Lines 146-156: the head of the output pane text. *)
Fixpoint sources_text (i : nat) (results : list (string * (string * json))) : string :=
  match results with
  | [] => ""
  | (id, (doc, _)) :: rest =>
      (NL +:+ "🔹 Source " +:+ pretty (i + 1)%nat +:+ " (ID: " +:+ id +:+ "):" +:+ NL)
      +:+ ("    " +:+ doc +:+ NL)
      +:+ sources_text (S i) rest
  end.

Definition output_head (question : string)
    (results : list (string * (string * json))) : string :=
  (str_repeat "=" 80 +:+ NL)
  +:+ ("Question: " +:+ question +:+ NL)
  +:+ (str_repeat "=" 80 +:+ NL +:+ NL)
  +:+ ("🧠 Retrieved Documents:" +:+ NL)
  +:+ (str_repeat "-" 80 +:+ NL)
  +:+ sources_text 0 results
  +:+ (NL +:+ str_repeat "-" 80 +:+ NL).

(** Line 159 *)
Definition build_context (top_docs : list string) : string := join NL top_docs.

(** Lines 161-167 *)
Definition build_prompt (context question : string) : string :=
  "Use the following context to answer the question." +:+ NL
  +:+ NL
  +:+ "Context:" +:+ NL
  +:+ context +:+ NL
  +:+ NL
  +:+ "Question: " +:+ question +:+ NL
  +:+ "Answer:".

(** The three [except] clauses, lines 192-204. *)
Definition question_failed : PyExc → Py unit :=
  except_clauses
    (emit (ShowError "Connection Error"
             ("❌ Error: Cannot connect to Ollama at http://localhost:11434"
              +:+ NL +:+ "   Please ensure Ollama is running."));;
     emit (StatusLabel "Error - Connection failed");;
     emit (AskButton true))
    (emit (ShowError "Timeout Error" "Request to Ollama timed out");;
     emit (StatusLabel "Error - Request timeout");;
     emit (AskButton true))
    (λ e,
     emit (ShowError "Error" ("Unexpected error: " +:+ exc_str e));;
     emit (StatusLabel ("Error - " +:+ exc_str e));;
     emit (AskButton true)).

Definition _process_question (env : Env) (question : string) : Py unit :=
  try_except
    (emit (StatusLabel "Getting embedding...");;
     emit RootUpdate;;
     q_emb ← get_embedding env question;
     results ← collection_query env q_emb 3;
     let top_docs := fst ∘ snd <$> results in
     let output := output_head question results in
     let context := build_context top_docs in
     let prompt := build_prompt context question in
     emit (StatusLabel "Generating answer from LLM...");;
     emit RootUpdate;;
     response ← post_generate env prompt;
     raise_for_status GENERATE_URL response;;
     value ← response_json response;
     field ← getitem value "response";
     answer ← json_strip field;
     let output :=
       output
       +:+ (NL +:+ "🤖 Answer:" +:+ NL +:+ str_repeat "-" 80 +:+ NL)
       +:+ answer
       +:+ (NL +:+ str_repeat "-" 80 +:+ NL +:+ NL) in
     emit (OutputInsert output);;
     emit OutputSee;;
     emit (StatusLabel "Ready");;
     emit EntryDelete;;
     emit (AskButton true))
    question_failed.

(** [threading.Thread(target=...).start()]: the worker is run to its end at
    the point where it is started.  Whatever leaves the target, an exception
    or [SystemExit], ends that thread and does not reach the starter.  The
    script never joins the thread (lines 128-129), so the main loop may run
    other callbacks while a worker is pending; this is the schedule in which
    none does.  The statements on the window are about one press of Ask, or
    about what no schedule changes. *)
Definition thread_start (question : string) (target : Py unit) : Py unit := λ w,
  (Returned tt, snd (target (record (ThreadStart question) w))).

(** Lines 116-129; [entry] is the content of the question entry. *)
Definition ask_question (env : Env) (entry : string) : Py unit :=
  let question := strip entry in
  match question with
  | EmptyString => emit (ShowWarning "Warning" "Please enter a question!")
  | String _ _ =>
      emit (AskButton false);;
      emit (StatusLabel "Processing... retrieving documents and generating answer");;
      emit RootUpdate;;
      thread_start question (_process_question env question)
  end.

(** ** Vocabulary of the statements *)

(** The service responded successfully: the "embedding" field of a response
    whose status is no error and whose body is a JSON object. *)
Definition embedding_of_reply (reply : HttpReply) : option json :=
  match reply with
  | TransportError _ => None
  | HttpResponse r =>
      if is_http_error (status_code r) then None
      else match body r with
           | Parsed (JObj fields) => obj_lookup "embedding" fields
           | _ => None
           end
  end.

(** The embedding service answers every request successfully. *)
Definition always_embeds (env : Env) : Prop :=
  ∀ history text, is_Some (embedding_of_reply (embed_service env history text)).

(** The world after the request for [text] has been sent. *)
Definition requested (text : string) (w : World) : World :=
  record (EmbedRequest EMBED_MODEL text) w.

(** The world after [lines] have been printed. *)
Definition printed (lines : list string) (w : World) : World :=
  {| w_coll := w_coll w; w_log := w_log w ++ (Print <$> lines) |}.

(** The world after [collection.add] has been called for [item]. *)
Definition add_called (item : Item) (emb : json) (w : World) : World :=
  record (CollectionAdd (item_id item) (item_text item) emb)
         (requested (enriched_text item) w).

(** The (id, document) pairs that [collection.add] was called with, in call
    order. *)
Fixpoint added (log : list Event) : list (string * string) :=
  match log with
  | [] => []
  | CollectionAdd id document _ :: rest => (id, document) :: added rest
  | _ :: rest => added rest
  end.

Definition item_pair (item : Item) : string * string := (item_id item, item_text item).

(** The texts sent to the embedding service, in call order. *)
Fixpoint embedded (log : list Event) : list string :=
  match log with
  | [] => []
  | EmbedRequest _ text :: rest => text :: embedded rest
  | _ :: rest => embedded rest
  end.

(** The prompts sent to the generation service, in call order. *)
Fixpoint generated (log : list Event) : list string :=
  match log with
  | [] => []
  | GenerateRequest _ prompt :: rest => prompt :: generated rest
  | _ :: rest => generated rest
  end.

(** The error dialogs shown, in order. *)
Fixpoint errors_shown (log : list Event) : list (string * string) :=
  match log with
  | [] => []
  | ShowError title message :: rest => (title, message) :: errors_shown rest
  | _ :: rest => errors_shown rest
  end.

(** The string consists of one-byte whitespace characters only. *)
Fixpoint whitespace_only (s : string) : bool :=
  match s with
  | EmptyString => true
  | String c r => space1 c && whitespace_only r
  end.

(** The world in which [_process_question] calls [get_embedding]. *)
Definition getting_embedding (w : World) : World :=
  record RootUpdate (record (StatusLabel "Getting embedding...") w).

(** The world in which [_process_question] posts its prompt, after the
    question has been embedded as [q_emb] and the collection queried. *)
Definition generating (question : string) (q_emb : json) (w : World) : World :=
  record RootUpdate
    (record (StatusLabel "Generating answer from LLM...")
       (record (CollectionQuery q_emb 3)
          (requested question (getting_embedding w)))).

(** In [log], [collection.add] was called for [item] with [emb] right after
    the request that sent the enriched text of [item] to the embedding
    service, and [emb] is what the service answered to that request. *)
Definition embedded_from (env : Env) (log : list Event) (item : Item) (emb : json)
    : Prop :=
  ∃ before after,
    log = before ++ EmbedRequest EMBED_MODEL (enriched_text item)
                 :: CollectionAdd (item_id item) (item_text item) emb :: after
    ∧ embedding_of_reply (embed_service env before (enriched_text item)) = Some emb.

(** The world in which the ingestion loop starts: the ids have been
    listed and the number of new documents announced. *)
Definition announced (new : list Item) (coll : Collection) : World :=
  printed ["🆕 Adding " +:+ pretty (length new) +:+ " new documents to Chroma..."]
          (record CollectionGet (start coll)).

(** The world of a run that found nothing to add. *)
Definition nothing_to_add (coll : Collection) : World :=
  {| w_coll := coll;
     w_log := [CollectionGet; Print "✅ All documents already in ChromaDB."] |}.


(** The executions of the ingestion loop over [items]: how the loop leaves
    and in which world. *)
Inductive loop_run (env : Env) : list Item → World → Result unit → World → Prop :=
  | loop_finished w :
      loop_run env [] w (Returned tt) w
  | loop_exited item rest w lines :
      embedding_of_reply (embed_service env (w_log w) (enriched_text item)) = None →
      loop_run env (item :: rest) w (Exited 1)
               (printed lines (requested (enriched_text item) w))
  | loop_refused item rest w emb :
      embedding_of_reply (embed_service env (w_log w) (enriched_text item)) = Some emb →
      is_Some (w_coll w !! item_id item) →
      dup_policy env = DupRaise →
      loop_run env (item :: rest) w
               (Raised (mkExc DuplicateIDError (item_id item)))
               (add_called item emb w)
  | loop_skipped item rest w emb r w' :
      embedding_of_reply (embed_service env (w_log w) (enriched_text item)) = Some emb →
      is_Some (w_coll w !! item_id item) →
      dup_policy env = DupIgnore →
      loop_run env rest (add_called item emb w) r w' →
      loop_run env (item :: rest) w r w'
  | loop_stored item rest w emb r w' :
      embedding_of_reply (embed_service env (w_log w) (enriched_text item)) = Some emb →
      w_coll w !! item_id item = None →
      loop_run env rest
               (store (item_id item) (item_text item) emb (add_called item emb w)) r w' →
      loop_run env (item :: rest) w r w'.

(** ** Sample data *)

Definition sushi : Item :=
  mkItem "a1" "Sushi is a Japanese dish." (Some "Japan") (Some "seafood").
Definition ramen : Item := mkItem "a2" "Ramen is a noodle soup." (Some "Japan") None.
Definition bread : Item := mkItem "a3" "Bread is baked." None None.

Definition vector : json := JArr [JFloat "0.25"; JFloat "-1.5"; JInt 2].

Definition ok_embedding : HttpReply :=
  HttpResponse (mkResponse 200 "OK" (Parsed (JObj [("embedding", vector)]))).

Definition read_timeout : HttpReply :=
  TransportError
    (mkExc ReadTimeout
       "HTTPConnectionPool(host='localhost', port=11434): Read timed out. (read timeout=30)").

(** The generation service echoes its prompt. *)
Definition echo_generation (history : list Event) (prompt : string) : HttpReply :=
  HttpResponse (mkResponse 200 "OK" (Parsed (JObj [("response", JStr prompt)]))).

Definition no_distance (a b : json) : Q := 0%Q.

(** A distance on one-dimensional integer vectors. *)
Definition int_distance (a b : json) : Q :=
  match a, b with
  | JArr [JInt x], JArr [JInt y] => inject_Z (Z.abs (x - y))
  | _, _ => 0%Q
  end.

Definition env_line : Env :=
  mkEnv (λ _ _, ok_embedding) echo_generation DupIgnore int_distance.

(** The embedding service places every text at the origin of the line. *)
Definition origin_embedding : HttpReply :=
  HttpResponse (mkResponse 200 "OK" (Parsed (JObj [("embedding", JArr [JInt 0])]))).

Definition env_ranking : Env :=
  mkEnv (λ _ _, origin_embedding) echo_generation DupIgnore int_distance.


Definition on_a_line : Collection :=
  {[ "far" := ("Far.", JArr [JInt 9]);
     "near" := ("Near.", JArr [JInt 1]);
     "mid" := ("Mid.", JArr [JInt (-4)]) ]}.

(** The collection after [sushi] has been ingested. *)
Definition indexed : Collection := {[ "a1" := ("Sushi is a Japanese dish.", vector) ]}.

(** The generation service times out. *)
Definition generation_timeout (history : list Event) (prompt : string) : HttpReply :=
  TransportError
    (mkExc ReadTimeout
       "HTTPConnectionPool(host='localhost', port=11434): Read timed out. (read timeout=60)").

Definition env_generation_timeout : Env :=
  mkEnv (λ _ _, ok_embedding) generation_timeout DupIgnore no_distance.

(** Both services respond. *)
Definition env_up (policy : DupPolicy) : Env :=
  mkEnv (λ _ _, ok_embedding) echo_generation policy no_distance.

(** The embedding service times out on every request. *)
Definition env_timeout : Env :=
  mkEnv (λ _ _, read_timeout) echo_generation DupIgnore no_distance.


(** ** The output pane and its buttons (lines 206-219)

    The window besides the collection and the log: the text of the output
    pane, the files written through "Save Output" and the information dialogs
    shown. *)

Record Gui : Type := mkGui {
  g_world : World;
  g_pane : string;
  g_files : gmap string string;
  g_infos : list (string * string)
}.

(** A window opened on a world: the pane is empty. *)
Definition open_window (w : World) (files : gmap string string)
    (infos : list (string * string)) : Gui :=
  {| g_world := w; g_pane := ""; g_files := files; g_infos := infos |}.

(** The text that [output_text.insert(tk.END, ...)] calls of [log] append. *)
Fixpoint shown (log : list Event) : string :=
  match log with
  | [] => ""
  | OutputInsert text :: rest => text +:+ shown rest
  | _ :: rest => shown rest
  end.

(** The "Ask" button and the Return key: [ask_question] on the content of
    the entry; the pane receives what the worker inserts. *)
Definition gui_ask (env : Env) (entry : string) (g : Gui) : Gui :=
  let w' := (ask_question env entry (g_world g)).2 in
  {| g_world := w';
     g_pane := g_pane g +:+ shown (drop (length (w_log (g_world g))) (w_log w'));
     g_files := g_files g;
     g_infos := g_infos g |}.

(** Lines 206-208 *)
Definition clear_output (g : Gui) : Gui :=
  {| g_world := record (StatusLabel "Output cleared") (g_world g);
     g_pane := "";
     g_files := g_files g;
     g_infos := g_infos g |}.

(** Lines 210-219.  [file_path] is what the save dialog returns, the empty
    string when it is cancelled; [failure] is the exception of
    [open(file_path, "w")] when it raises one.  [output_text.get(1.0, tk.END)]
    is the text of the pane with the newline a Tk text widget keeps at its
    end. *)
Definition save_output (file_path : string) (failure : option PyExc) (g : Gui)
    : Result unit * Gui :=
  match file_path with
  | EmptyString => (Returned tt, g)
  | String _ _ =>
      match failure with
      | Some e => (Raised e, g)
      | None =>
          (Returned tt,
           {| g_world := record (StatusLabel ("Saved to " +:+ file_path)) (g_world g);
              g_pane := g_pane g;
              g_files := <[file_path := g_pane g +:+ NL]> (g_files g);
              g_infos := g_infos g ++ [("Success", "Output saved to " +:+ file_path)] |})
      end
  end.

(** What the user does with the window. *)
Inductive Action : Type :=
  | Ask (entry : string)
  | Clear
  | Save (file_path : string) (failure : option PyExc)
  | Edit (text : string).

(** One callback of the main loop.  An exception that leaves a callback is
    reported by Tk and the loop goes on. *)
Definition gui_step (env : Env) (g : Gui) (action : Action) : Gui :=
  match action with
  | Ask entry => gui_ask env entry g
  | Clear => clear_output g
  | Save file_path failure => (save_output file_path failure g).2
  | Edit text =>
      {| g_world := g_world g; g_pane := text;
         g_files := g_files g; g_infos := g_infos g |}
  end.

(** [root.mainloop()] until the window is closed. *)
Definition session (env : Env) (actions : list Action) (g : Gui) : Gui :=
  foldl (gui_step env) g actions.

(** The whole script: the ingestion step, then the window (lines 222-225) and,
    once it is closed, a second window (lines 372-375, the class and the start
    of the GUI are repeated in the file). *)
Definition script (env : Env) (food_data : list Item) (coll : Collection)
    (files : gmap string string) (first second : list Action) : Result unit * Gui :=
  match run_ingestion env food_data coll with
  | (Returned _, w) =>
      let g1 := session env first (open_window w files []) in
      let g2 := session env second (open_window (g_world g1) (g_files g1) (g_infos g1)) in
      (Returned tt, g2)
  | (Raised e, w) => (Raised e, open_window w files [])
  | (Exited code, w) => (Exited code, open_window w files [])
  end.

(** ** More vocabulary *)

(** The generation service responded successfully: the stripped "response"
    field of a response whose status is no error and whose body is a JSON
    object holding a string there. *)
Definition answer_of_reply (reply : HttpReply) : option string :=
  match reply with
  | TransportError _ => None
  | HttpResponse r =>
      if is_http_error (status_code r) then None
      else match body r with
           | Parsed (JObj fields) =>
               match obj_lookup "response" fields with
               | Some (JStr s) => Some (strip s)
               | _ => None
               end
           | _ => None
           end
  end.

(** The state of the Ask button after [log], from the state before it. *)
Fixpoint ask_button (enabled : bool) (log : list Event) : bool :=
  match log with
  | [] => enabled
  | AskButton state :: rest => ask_button state rest
  | _ :: rest => ask_button enabled rest
  end.

(** The queries made to the collection: vector and number of results. *)
Fixpoint queried (log : list Event) : list (json * nat) :=
  match log with
  | [] => []
  | CollectionQuery q k :: rest => (q, k) :: queried rest
  | _ :: rest => queried rest
  end.

(** How often the question entry was emptied. *)
Fixpoint entry_deletes (log : list Event) : nat :=
  match log with
  | [] => 0%nat
  | EntryDelete :: rest => S (entry_deletes rest)
  | _ :: rest => entry_deletes rest
  end.

(** The world in which [ask_question] starts its worker. *)
Definition asked (question : string) (w : World) : World :=
  record (ThreadStart question)
    (record RootUpdate
       (record (StatusLabel "Processing... retrieving documents and generating answer")
          (record (AskButton false) w))).

(** The text [_process_question] inserts for an answered question. *)
Definition answer_output (question : string)
    (results : list (string * (string * json))) (answer : string) : string :=
  output_head question results
  +:+ (NL +:+ "🤖 Answer:" +:+ NL +:+ str_repeat "-" 80 +:+ NL)
  +:+ answer
  +:+ (NL +:+ str_repeat "-" 80 +:+ NL +:+ NL).

(** The events of [_process_question] up to the generation request. *)
Definition asking_events (question : string) (q_emb : json) (prompt : string)
    : list Event :=
  [StatusLabel "Getting embedding..."; RootUpdate;
   EmbedRequest EMBED_MODEL question; CollectionQuery q_emb 3;
   StatusLabel "Generating answer from LLM..."; RootUpdate;
   GenerateRequest LLM_MODEL prompt].

(** What [_process_question] inserts into the output pane: the output of an
    answered question, nothing when the embedding or the generation request
    fails. *)
Definition answered (env : Env) (question : string) (w : World) : option string :=
  match embedding_of_reply (embed_service env (w_log (getting_embedding w)) question) with
  | None => None
  | Some q_emb =>
      let results := nearest env (w_coll w) q_emb 3 in
      let prompt := build_prompt (build_context (fst ∘ snd <$> results)) question in
      match answer_of_reply
              (generate_service env (w_log (generating question q_emb w)) prompt) with
      | None => None
      | Some answer => Some (answer_output question results answer)
      end
  end.

(** The questions of a session that reach the worker: the stripped entries
    that are not empty, in order. *)
Definition questions (actions : list Action) : list string :=
  omap (λ action,
          match action with
          | Ask entry =>
              match strip entry with
              | EmptyString => None
              | String c q => Some (String c q)
              end
          | _ => None
          end) actions.

(** More sample data: a connect timeout, a refused connection, and replies
    that are no embedding. *)
Definition connect_timeout : PyExc :=
  mkExc ConnectTimeout
    "HTTPConnectionPool(host='localhost', port=11434): Max retries exceeded (connect timeout=30)".

Definition server_error : Response :=
  mkResponse 500 "Internal Server Error" (Parsed (JObj [("embedding", vector)])).

Definition model_missing : Response :=
  mkResponse 200 "OK" (Parsed (JObj [("error", JStr "model not found")])).

Definition env_replying (reply : HttpReply) : Env :=
  mkEnv (λ _ _, reply) echo_generation DupIgnore no_distance.

(** The generation service answers with blanks around the text. *)
Definition padded_generation (history : list Event) (prompt : string) : HttpReply :=
  HttpResponse
    (mkResponse 200 "OK" (Parsed (JObj [("response", JStr (" Raw fish on rice. " +:+ NL))]))).

Definition env_answering : Env :=
  mkEnv (λ _ _, ok_embedding) padded_generation DupIgnore no_distance.

(** The generation service does not know the model. *)
Definition generation_not_found (history : list Event) (prompt : string) : HttpReply :=
  HttpResponse
    (mkResponse 404 "Not Found"
       (Parsed (JObj [("error", JStr "model 'llama3.2' not found")]))).

Definition env_generation_not_found : Env :=
  mkEnv (λ _ _, ok_embedding) generation_not_found DupIgnore no_distance.

(** * Properties *)

(** ** Strings *)

Lemma append_cons (c : Ascii.ascii) (s t : string) :
  String c s +:+ t = String c (s +:+ t).
Proof. reflexivity. Qed.

Lemma append_nil_r (s : string) : s +:+ "" = s.
Proof. induction s as [|c s IH]; [done | by rewrite append_cons, IH]. Qed.

Lemma append_assoc (s t u : string) : (s +:+ t) +:+ u = s +:+ t +:+ u.
Proof. induction s as [|c s IH]; [done | by rewrite !append_cons, IH]. Qed.

Lemma append_length (s t : string) :
  String.length (s +:+ t) = (String.length s + String.length t)%nat.
Proof. induction s as [|c s IH]; [done | rewrite append_cons; simpl; by rewrite IH]. Qed.

Lemma append_eq_self (s t : string) : s +:+ t = s → t = "".
Proof.
  intros H. apply (f_equal String.length) in H. rewrite append_length in H.
  destruct t; [done | simpl in H; lia].
Qed.

Example strip_question :
  strip ("  What is sushi? " +:+ NL) = "What is sushi?"
  ∧ strip "What  is sushi?" = "What  is sushi?"
  ∧ strip (" " +:+ NL +:+ "  ") = "".
Proof. repeat split; vm_compute; reflexivity. Qed.

(** U+00A0 (bytes C2 A0) is stripped, the byte A0 that ends U+00E0 is not. *)
Example strip_utf8 :
  strip (String (Ascii.ascii_of_N 194) (String (Ascii.ascii_of_N 160) "a")) = "a"
  ∧ strip (String (Ascii.ascii_of_N 195) (String (Ascii.ascii_of_N 160) ""))
    = String (Ascii.ascii_of_N 195) (String (Ascii.ascii_of_N 160) "").
Proof. repeat split; vm_compute; reflexivity. Qed.

Example join_lines :
  join NL ["Sushi is a Japanese dish."; "Ramen is a noodle soup."]
  = "Sushi is a Japanese dish." +:+ NL +:+ "Ramen is a noodle soup."
  ∧ join NL ["Sushi is a Japanese dish."] = "Sushi is a Japanese dish."
  ∧ join NL [] = "".
Proof. repeat split; reflexivity. Qed.

(** ** Enriched text *)

Example enriched_text_sushi :
  enriched_text sushi
  = "Sushi is a Japanese dish. This food is popular in Japan. It is a type of seafood."
  ∧ enriched_text bread = "Bread is baked.".
Proof. split; reflexivity. Qed.

(** The enriched text is the text followed by the two clauses. *)
Lemma enriched_text_append (item : Item) :
  enriched_text item = item_text item +:+ region_clause item +:+ type_clause item.
Proof.
  unfold enriched_text, region_clause, type_clause.
  destruct (item_region item), (item_type item);
    rewrite ?append_assoc, ?append_nil_r; done.
Qed.

(** C4 (enriched-text construction): the enriched string is the record's text
    followed by the region clause when [region] is present and then by the type
    clause when [type] is present; with neither attribute it is the text
    itself. *)
Theorem enriched_text_clauses (item : Item) :
  enriched_text item = item_text item +:+ region_clause item +:+ type_clause item
  ∧ match item_region item, item_type item with
    | Some region, Some type =>
        enriched_text item =
          item_text item +:+ " This food is popular in " +:+ region +:+ "."
                         +:+ " It is a type of " +:+ type +:+ "."
    | Some region, None =>
        enriched_text item =
          item_text item +:+ " This food is popular in " +:+ region +:+ "."
    | None, Some type =>
        enriched_text item = item_text item +:+ " It is a type of " +:+ type +:+ "."
    | None, None => enriched_text item = item_text item
    end.
Proof.
  split; [apply enriched_text_append |].
  unfold enriched_text.
  destruct (item_region item), (item_type item); rewrite ?append_assoc; done.
Qed.

(** An attribute makes the enriched text differ from the text. *)
Lemma enriched_text_differs (item : Item) :
  is_Some (item_region item) ∨ is_Some (item_type item) →
  enriched_text item ≠ item_text item.
Proof.
  intros Hattr Heq.
  rewrite enriched_text_append in Heq.
  apply append_eq_self in Heq.
  unfold region_clause, type_clause in Heq.
  destruct (item_region item) as [region|], (item_type item) as [type|];
    try discriminate Heq.
  destruct Hattr as [[? ?] | [? ?]]; discriminate.
Qed.

(** ** The embedding client *)

Lemma bind_run {A B} (m : Py A) (f : A → Py B) (w : World) :
  (m ≫= f) w =
    match m w with
    | (Returned a, w') => f a w'
    | (Raised e, w') => (Raised e, w')
    | (Exited code, w') => (Exited code, w')
    end.
Proof. reflexivity. Qed.

Lemma printed_one (line : string) (w : World) : record (Print line) w = printed [line] w.
Proof. reflexivity. Qed.

Lemma printed_two (l1 l2 : string) (w : World) :
  record (Print l2) (record (Print l1) w) = printed [l1; l2] w.
Proof. unfold record, printed. simpl. by rewrite <- app_assoc. Qed.

(** Whatever is raised inside [get_embedding] ends in [sys.exit(1)] after at
    least one printed line. *)
Lemma embedding_handler_exits (e : PyExc) (w : World) :
  ∃ lines, embedding_failed e w = (Exited 1, printed lines w).
Proof.
  unfold embedding_failed.
  unfold except_clauses.
  destruct (is_ConnectionError (exc_class e)); [| destruct (is_Timeout (exc_class e))].
  - eexists. cbv [mbind Py_bind print emit sys_exit]. by rewrite printed_two.
  - eexists. cbv [mbind Py_bind print emit sys_exit]. by rewrite printed_one.
  - eexists. cbv [mbind Py_bind print emit sys_exit]. by rewrite printed_one.
Qed.

(** [get_embedding] on each reply of the service. *)
Lemma get_embedding_run (env : Env) (text : string) (w : World) :
  match embedding_of_reply (embed_service env (w_log w) text) with
  | Some v => get_embedding env text w = (Returned v, requested text w)
  | None => ∃ lines, get_embedding env text w = (Exited 1, printed lines (requested text w))
  end.
Proof.
  unfold get_embedding, try_except. rewrite bind_run.
  unfold post_embeddings, embedding_of_reply, requested.
  destruct (embed_service env (w_log w) text) as [e | r].
  { apply embedding_handler_exits. }
  rewrite bind_run. unfold raise_for_status.
  destruct (is_http_error (status_code r)).
  { apply embedding_handler_exits. }
  simpl. rewrite bind_run. unfold response_json.
  destruct (body r) as [value | msg]; [| apply embedding_handler_exits].
  simpl. destruct value; simpl; try apply embedding_handler_exits.
  destruct (obj_lookup "embedding" fields); simpl; [done |].
  apply embedding_handler_exits.
Qed.

(** ** The ingestion loop *)

Lemma added_app (l1 l2 : list Event) : added (l1 ++ l2) = added l1 ++ added l2.
Proof.
  induction l1 as [|e l1 IH]; simpl; [done |].
  destruct e; simpl; by rewrite ?IH.
Qed.

Lemma added_prints (lines : list string) : added (Print <$> lines) = [].
Proof. induction lines as [|l lines IH]; simpl; done. Qed.

Lemma embedded_app (l1 l2 : list Event) : embedded (l1 ++ l2) = embedded l1 ++ embedded l2.
Proof.
  induction l1 as [|e l1 IH]; simpl; [done |].
  destruct e; simpl; by rewrite ?IH.
Qed.

(** One iteration of the loop. *)
Lemma ingest_item_run (env : Env) (item : Item) (w : World) :
  match embedding_of_reply (embed_service env (w_log w) (enriched_text item)) with
  | None =>
      ∃ lines,
        ingest_item env item w
        = (Exited 1, printed lines (requested (enriched_text item) w))
  | Some emb =>
      ingest_item env item w =
        match w_coll w !! item_id item with
        | None =>
            (Returned tt,
             store (item_id item) (item_text item) emb (add_called item emb w))
        | Some _ =>
            match dup_policy env with
            | DupRaise =>
                (Raised (mkExc DuplicateIDError (item_id item)), add_called item emb w)
            | DupIgnore => (Returned tt, add_called item emb w)
            end
        end
  end.
Proof.
  pose proof (get_embedding_run env (enriched_text item) w) as Hget.
  unfold ingest_item. rewrite bind_run.
  destruct (embedding_of_reply _) as [emb|].
  - rewrite Hget. unfold collection_add. simpl.
    destruct (w_coll w !! item_id item); [destruct (dup_policy env) |]; done.
  - destruct Hget as [lines Hget]. exists lines. by rewrite Hget.
Qed.

(** The loop of the script runs as [loop_run] says. *)
Lemma for_each_loop_run (env : Env) (items : list Item) (w : World) :
  loop_run env items w
           (for_each items (ingest_item env) w).1
           (for_each items (ingest_item env) w).2.
Proof.
  revert w. induction items as [|item rest IH]; intros w; simpl.
  { constructor. }
  rewrite bind_run.
  pose proof (ingest_item_run env item w) as Hitem.
  destruct (embedding_of_reply _) as [emb|] eqn:Hreply.
  - rewrite Hitem.
    destruct (w_coll w !! item_id item) as [entry|] eqn:Hid.
    + destruct (dup_policy env) eqn:Hpolicy; simpl.
      * by eapply loop_refused.
      * eapply loop_skipped; eauto.
    + eapply loop_stored; eauto.
  - destruct Hitem as [lines ->]. simpl. by apply loop_exited.
Qed.


(** Nothing is rolled back: the loop only grows the collection. *)
Lemma loop_run_subseteq env items w r w' :
  loop_run env items w r w' → w_coll w ⊆ w_coll w'.
Proof.
  induction 1 as [w | item rest w lines Hreply | item rest w emb Hreply Hid Hpolicy
                 | item rest w emb r w' Hreply Hid Hpolicy Hrest IH
                 | item rest w emb r w' Hreply Hid Hrest IH]; simpl in *; try done.
  etrans; [| exact IH]. by apply insert_subseteq.
Qed.

(** A loop that returns has every item's id in the collection. *)
Lemma loop_run_returned_dom env items w w' :
  loop_run env items w (Returned tt) w' →
  ∀ item, item ∈ items → item_id item ∈ dom (w_coll w').
Proof.
  intros Hrun. remember (Returned tt) as r eqn:Hr.
  induction Hrun as [w | item rest w lines Hreply | item rest w emb Hreply Hid Hpolicy
                    | item rest w emb r w' Hreply Hid Hpolicy Hrest IH
                    | item rest w emb r w' Hreply Hid Hrest IH];
    intros x Hx; try discriminate Hr.
  - by apply elem_of_nil in Hx.
  - apply elem_of_cons in Hx as [-> | Hx]; [| by apply IH].
    apply loop_run_subseteq in Hrest. simpl in Hrest.
    apply elem_of_dom. destruct Hid as [entry Hid].
    exists entry. eapply lookup_weaken; eauto.
  - apply elem_of_cons in Hx as [-> | Hx]; [| by apply IH].
    apply loop_run_subseteq in Hrest. simpl in Hrest.
    apply elem_of_dom. eexists. eapply lookup_weaken; [| exact Hrest].
    apply lookup_insert_eq.
Qed.

(** ** Ingestion *)

Lemma run_ingestion_run (env : Env) (food_data : list Item) (coll : Collection) :
  run_ingestion env food_data coll =
    match new_items food_data (dom coll) with
    | [] => (Returned tt, nothing_to_add coll)
    | item :: rest =>
        for_each (item :: rest) (ingest_item env) (announced (item :: rest) coll)
    end.
Proof.
  unfold run_ingestion, ingestion. rewrite bind_run. simpl.
  destruct (new_items food_data (dom coll)); [done |].
  rewrite bind_run. reflexivity.
Qed.

Lemma new_items_nil (food_data : list Item) (ids : gset string) :
  (∀ item, item ∈ food_data → item_id item ∈ ids) → new_items food_data ids = [].
Proof.
  unfold new_items. induction food_data as [|item rest IH]; intros Hall; [done |].
  rewrite filter_cons_False.
  - apply IH. intros x Hx. apply Hall. by right.
  - intros Hnot. apply Hnot, Hall. by left.
Qed.

Lemma elem_of_new_items (food_data : list Item) (ids : gset string) (item : Item) :
  item ∈ new_items food_data ids ↔ (item_id item ∉ ids) ∧ (item ∈ food_data).
Proof. unfold new_items. by rewrite list_elem_of_filter. Qed.

(** After a run that returned, every record of the corpus is indexed. *)
Lemma run_ingestion_returned_dom env food_data coll w1 :
  run_ingestion env food_data coll = (Returned tt, w1) →
  ∀ item, item ∈ food_data → item_id item ∈ dom (w_coll w1).
Proof.
  rewrite run_ingestion_run. intros Hrun item Hitem.
  destruct (decide (item_id item ∈ dom coll)) as [Hold | Hnew].
  - assert (coll ⊆ w_coll w1) as Hsub.
    { destruct (new_items food_data (dom coll)) as [|x new] eqn:Hnew.
      - by injection Hrun as <-.
      - pose proof (for_each_loop_run env (x :: new) (announced (x :: new) coll)) as Hloop.
        rewrite Hrun in Hloop. by apply loop_run_subseteq in Hloop. }
    by apply (subseteq_dom _ _ Hsub).
  - assert (item ∈ new_items food_data (dom coll)) as Hin
      by by apply elem_of_new_items.
    destruct (new_items food_data (dom coll)) as [|x new] eqn:Hnew'.
    { by apply elem_of_nil in Hin. }
    pose proof (for_each_loop_run env (x :: new) (announced (x :: new) coll)) as Hloop.
    rewrite Hrun in Hloop. by eapply loop_run_returned_dom.
Qed.

(** C1 (idempotent ingestion): after a run of the ingestion step that returned,
    a second run on the same corpus and on the collection the first run left
    finds no new record, calls neither the embedding service nor
    [collection.add], reports that all documents are present, returns without
    error and leaves the collection as the first run left it. *)
Theorem ingestion_idempotent (env1 env2 : Env) (food_data : list Item)
    (coll : Collection) (w1 : World) :
  run_ingestion env1 food_data coll = (Returned tt, w1) →
  new_items food_data (dom (w_coll w1)) = []
  ∧ run_ingestion env2 food_data (w_coll w1) = (Returned tt, nothing_to_add (w_coll w1))
  ∧ added (w_log (nothing_to_add (w_coll w1))) = []
  ∧ embedded (w_log (nothing_to_add (w_coll w1))) = []
  ∧ w_coll (nothing_to_add (w_coll w1)) = w_coll w1.
Proof.
  intros Hrun.
  assert (new_items food_data (dom (w_coll w1)) = []) as Hnone.
  { apply new_items_nil. by eapply run_ingestion_returned_dom. }
  split; [done |]. split; [| done].
  by rewrite run_ingestion_run, Hnone.
Qed.

Lemma ingestion_idempotent_witness :
  ∃ w1,
    run_ingestion (env_up DupRaise) [sushi; ramen; bread] ∅ = (Returned tt, w1)
    ∧ run_ingestion env_timeout [sushi; ramen; bread] (w_coll w1)
      = (Returned tt, nothing_to_add (w_coll w1)).
Proof.
  eexists. split; [vm_compute; reflexivity |].
  refine (proj1 (proj2 (ingestion_idempotent (env_up DupRaise) env_timeout
                          [sushi; ramen; bread] ∅ _ _))).
  vm_compute; reflexivity.
Defined.

(** ** What ingestion stores *)

Lemma loop_run_log env items w r w' :
  loop_run env items w r w' → ∃ events, w_log w' = w_log w ++ events.
Proof.
  induction 1 as [w | item rest w lines Hreply | item rest w emb Hreply Hid Hpolicy
                 | item rest w emb r w' Hreply Hid Hpolicy Hrest [events IH]
                 | item rest w emb r w' Hreply Hid Hrest [events IH]]; simpl in *.
  - exists []. by rewrite app_nil_r.
  - eexists. by rewrite <- app_assoc.
  - eexists. by rewrite <- app_assoc.
  - eexists. rewrite IH, <- !app_assoc. done.
  - eexists. rewrite IH, <- !app_assoc. done.
Qed.

(** The call for the first item of a run, seen in the final log. *)
Lemma embedded_from_head env item emb w w' events :
  embedding_of_reply (embed_service env (w_log w) (enriched_text item)) = Some emb →
  w_log w' = w_log (add_called item emb w) ++ events →
  embedded_from env (w_log w') item emb.
Proof.
  intros Hreply Hlog. exists (w_log w), events. split; [| done].
  rewrite Hlog. simpl. by rewrite <- !app_assoc.
Qed.

(** Every [collection.add] of the loop carries the text of one of the items
    and the vector obtained for its enriched text. *)
Lemma loop_run_adds env items w r w' :
  loop_run env items w r w' →
  ∀ id doc emb, CollectionAdd id doc emb ∈ w_log w' →
    CollectionAdd id doc emb ∈ w_log w
    ∨ ∃ item, item ∈ items ∧ id = item_id item ∧ doc = item_text item
              ∧ embedded_from env (w_log w') item emb.
Proof.
  induction 1 as [w | item rest w lines Hreply | item rest w emb Hreply Hid Hpolicy
                 | item rest w emb r w' Hreply Hid Hpolicy Hrest IH
                 | item rest w emb r w' Hreply Hid Hrest IH];
    intros id doc v Hin.
  - by left.
  - simpl in Hin. apply elem_of_app in Hin as [Hin | Hin].
    + apply elem_of_app in Hin as [Hin | Hin]; [by left |].
      apply list_elem_of_singleton in Hin. discriminate.
    + apply list_elem_of_fmap in Hin as (line & Heq & _). discriminate.
  - simpl in Hin. apply elem_of_app in Hin as [Hin | Hin].
    + apply elem_of_app in Hin as [Hin | Hin]; [by left |].
      apply list_elem_of_singleton in Hin. discriminate.
    + apply list_elem_of_singleton in Hin. injection Hin as -> -> ->.
      right. exists item. split; [by left |]. do 2 (split; [done |]).
      eapply embedded_from_head; [done |]. by rewrite app_nil_r.
  - destruct (loop_run_log _ _ _ _ _ Hrest) as [events Hlog].
    destruct (IH _ _ _ Hin) as [Hold | (x & Hx & -> & -> & Hfrom)].
    + simpl in Hold. apply elem_of_app in Hold as [Hold | Hold].
      * apply elem_of_app in Hold as [Hold | Hold]; [by left |].
        apply list_elem_of_singleton in Hold. discriminate.
      * apply list_elem_of_singleton in Hold. injection Hold as -> -> ->.
        right. exists item. split; [by left |]. do 2 (split; [done |]).
        by eapply embedded_from_head.
    + right. exists x. split; [by right | done].
  - destruct (loop_run_log _ _ _ _ _ Hrest) as [events Hlog].
    destruct (IH _ _ _ Hin) as [Hold | (x & Hx & -> & -> & Hfrom)].
    + simpl in Hold. apply elem_of_app in Hold as [Hold | Hold].
      * apply elem_of_app in Hold as [Hold | Hold]; [by left |].
        apply list_elem_of_singleton in Hold. discriminate.
      * apply list_elem_of_singleton in Hold. injection Hold as -> -> ->.
        right. exists item. split; [by left |]. do 2 (split; [done |]).
        by eapply embedded_from_head.
    + right. exists x. split; [by right | done].
Qed.

(** Every entry of the collection after the loop was there before, or was
    stored for one of the items with its text. *)
Lemma loop_run_entries env items w r w' :
  loop_run env items w r w' →
  ∀ id doc emb, w_coll w' !! id = Some (doc, emb) →
    w_coll w !! id = Some (doc, emb)
    ∨ w_coll w !! id = None
      ∧ ∃ item, item ∈ items ∧ id = item_id item ∧ doc = item_text item
                ∧ embedded_from env (w_log w') item emb.
Proof.
  induction 1 as [w | item rest w lines Hreply | item rest w emb Hreply Hid Hpolicy
                 | item rest w emb r w' Hreply Hid Hpolicy Hrest IH
                 | item rest w emb r w' Hreply Hid Hrest IH];
    intros id doc v Hentry; try (by left).
  - destruct (IH _ _ _ Hentry) as [Hold | (Hnone & x & Hx & Hrest')]; [by left |].
    right. split; [done |]. exists x. split; [by right | done].
  - destruct (loop_run_log _ _ _ _ _ Hrest) as [events Hlog].
    destruct (IH _ _ _ Hentry) as [Hold | (Hnone & x & Hx & Hrest')]; simpl in *.
    + destruct (decide (item_id item = id)) as [<- | Hne].
      * rewrite lookup_insert_eq in Hold. injection Hold as <- <-.
        right. split; [done |]. exists item. split; [by left |].
        do 2 (split; [done |]). by eapply embedded_from_head.
      * rewrite lookup_insert_ne in Hold by done. by left.
    + destruct (decide (item_id item = id)) as [<- | Hne].
      * by rewrite lookup_insert_eq in Hnone.
      * rewrite lookup_insert_ne in Hnone by done.
        right. split; [done |]. exists x. split; [by right | done].
Qed.

(** C3 (enrichment never stored): in every run of the ingestion step, each call
    of [collection.add] passes the id and the original text of a record of the
    corpus, together with the vector the embedding service returned for the
    enriched text of that record; each entry the run leaves in the collection
    was there before the run or holds, under a record's id, that record's
    original text with such a vector.  Whenever the record has a region or a
    type, the stored text differs from the enriched text. *)
Theorem enrichment_not_stored (env : Env) (food_data : list Item)
    (coll : Collection) (r : Result unit) (w' : World) :
  run_ingestion env food_data coll = (r, w') →
  (∀ id doc emb, CollectionAdd id doc emb ∈ w_log w' →
     ∃ item, item ∈ food_data ∧ id = item_id item ∧ doc = item_text item
             ∧ embedded_from env (w_log w') item emb
             ∧ (is_Some (item_region item) ∨ is_Some (item_type item) →
                doc ≠ enriched_text item))
  ∧ (∀ id doc emb, w_coll w' !! id = Some (doc, emb) →
       coll !! id = Some (doc, emb)
       ∨ coll !! id = None
         ∧ ∃ item, item ∈ food_data ∧ id = item_id item ∧ doc = item_text item
                   ∧ embedded_from env (w_log w') item emb
                   ∧ (is_Some (item_region item) ∨ is_Some (item_type item) →
                      doc ≠ enriched_text item)).
Proof.
  rewrite run_ingestion_run. intros Hrun.
  destruct (new_items food_data (dom coll)) as [|x new] eqn:Hnew.
  { injection Hrun as <- <-. split.
    - intros id doc emb Hin. simpl in Hin.
      apply elem_of_cons in Hin as [Hin | Hin]; [discriminate |].
      apply list_elem_of_singleton in Hin. discriminate.
    - intros id doc emb Hentry. by left. }
  pose proof (for_each_loop_run env (x :: new) (announced (x :: new) coll)) as Hloop.
  rewrite Hrun in Hloop. simpl in Hloop.
  assert (∀ item, item ∈ x :: new → item ∈ food_data) as Hsub.
  { intros item Hitem. rewrite <- Hnew in Hitem.
    by apply elem_of_new_items in Hitem as [_ ?]. }
  split.
  - intros id doc emb Hin.
    destruct (loop_run_adds _ _ _ _ _ Hloop _ _ _ Hin)
      as [Hold | (item & Hitem & -> & -> & Hfrom)].
    + simpl in Hold. apply elem_of_cons in Hold as [Hold | Hold]; [discriminate |].
      apply list_elem_of_singleton in Hold. discriminate.
    + exists item. repeat (split; [by auto |]).
      intros Hattr Heq. by apply (enriched_text_differs item).
  - intros id doc emb Hentry.
    destruct (loop_run_entries _ _ _ _ _ Hloop _ _ _ Hentry)
      as [Hold | (Hnone & item & Hitem & -> & -> & Hfrom)]; [by left |].
    right. split; [done |]. exists item. repeat (split; [by auto |]).
    intros Hattr Heq. by apply (enriched_text_differs item).
Qed.

Lemma enrichment_not_stored_witness :
  (run_ingestion (env_up DupRaise) [sushi; ramen] ∅).2.(w_coll) !! "a1"
    = Some ("Sushi is a Japanese dish.", vector)
  ∧ ∃ item, item ∈ [sushi; ramen] ∧ "a1" = item_id item
            ∧ "Sushi is a Japanese dish." = item_text item
            ∧ "Sushi is a Japanese dish." ≠ enriched_text item.
Proof.
  assert ((run_ingestion (env_up DupRaise) [sushi; ramen] ∅).2.(w_coll) !! "a1"
          = Some ("Sushi is a Japanese dish.", vector)) as Hentry
    by (vm_compute; reflexivity).
  split; [exact Hentry |].
  destruct (enrichment_not_stored (env_up DupRaise) [sushi; ramen] ∅
              (run_ingestion (env_up DupRaise) [sushi; ramen] ∅).1
              (run_ingestion (env_up DupRaise) [sushi; ramen] ∅).2
              (surjective_pairing _)) as [_ Hstored].
  destruct (Hstored _ _ _ Hentry)
    as [Hold | (_ & item & Hitem & Hid & Htext & _ & Hdiff)].
  - rewrite lookup_empty in Hold. discriminate.
  - exists item. repeat (split; [done |]).
    apply Hdiff. left. apply elem_of_cons in Hitem as [-> | Hitem]; [by eexists |].
    apply list_elem_of_singleton in Hitem. subst item. by eexists.
Defined.

(** ** Interrupted runs *)



Lemma new_items_NoDup (food_data : list Item) (ids : gset string) :
  NoDup (item_id <$> food_data) → NoDup (item_id <$> new_items food_data ids).
Proof.
  intros Hdup. eapply sublist_NoDup; [exact Hdup |].
  apply fmap_sublist. unfold new_items. apply sublist_filter.
Qed.



(** The loop over records whose ids are pairwise distinct and not yet
    stored: it stores a prefix of them, one entry per record, and it is cut
    short only by [sys.exit(1)] of the embedding client. *)
Lemma loop_run_fresh env items w r w' :
  NoDup (item_id <$> items) →
  (∀ item, item ∈ items → w_coll w !! item_id item = None) →
  loop_run env items w r w' →
  ∃ kept rest,
    items = kept ++ rest
    ∧ added (w_log w') = added (w_log w) ++ (item_pair <$> kept)
    ∧ dom (w_coll w') = dom (w_coll w) ∪ list_to_set (item_id <$> kept)
    ∧ (∀ item, item ∈ kept →
         ∃ emb, w_coll w' !! item_id item = Some (item_text item, emb))
    ∧ match r with
      | Returned _ => rest = []
      | Exited code => code = 1 ∧ rest ≠ []
      | Raised _ => False
      end
    ∧ (always_embeds env → r = Returned tt).
Proof.
  intros Hdup Hfresh Hrun. revert Hdup Hfresh.
  induction Hrun as [w | item rest w lines Hreply | item rest w emb Hreply Hid Hpolicy
                    | item rest w emb r w' Hreply Hid Hpolicy Hrest IH
                    | item rest w emb r w' Hreply Hid Hrest IH];
    intros Hdup Hfresh.
  - exists [], []. simpl. rewrite app_nil_r.
    repeat split; [set_solver | intros ? Hin; by apply elem_of_nil in Hin].
  - exists [], (item :: rest). simpl.
    rewrite !added_app, added_prints. simpl. rewrite !app_nil_r.
    repeat split; try done.
    + set_solver.
    + intros ? Hin. by apply elem_of_nil in Hin.
    + intros Hup. destruct (Hup (w_log w) (enriched_text item)) as [v Hv]. congruence.
  - destruct Hid as [entry Hid]. rewrite Hfresh in Hid by (by left). discriminate.
  - destruct Hid as [entry Hid]. rewrite Hfresh in Hid by (by left). discriminate.
  - rewrite fmap_cons in Hdup. apply NoDup_cons in Hdup as [Hnotin Hdup].
    destruct IH as (kept & rest' & -> & Hadded & Hdom & Hentries & Hr & Hup);
      [done | |].
    { intros x Hx. simpl. rewrite lookup_insert_ne; [apply Hfresh; by right |].
      intros Heq. apply Hnotin. rewrite Heq. by apply list_elem_of_fmap_2. }
    exists (item :: kept), rest'. simpl in *.
    split; [done |]. split; [| split; [| split; [| done]]].
    + rewrite Hadded, !added_app. simpl. by rewrite app_nil_r, <- app_assoc.
    + rewrite Hdom, dom_insert_L. set_solver.
    + intros x Hx. apply elem_of_cons in Hx as [-> | Hx]; [| by apply Hentries].
      exists emb. apply loop_run_subseteq in Hrest. simpl in Hrest.
      eapply lookup_weaken; [| exact Hrest]. apply lookup_insert_eq.
Qed.




(** ** Duplicate ids in the corpus *)


Lemma run_ingestion_new (env : Env) (food_data : list Item) (coll : Collection) :
  new_items food_data (dom coll) ≠ [] →
  run_ingestion env food_data coll =
    for_each (new_items food_data (dom coll)) (ingest_item env)
             (announced (new_items food_data (dom coll)) coll).
Proof.
  intros Hnew. rewrite run_ingestion_run.
  by destruct (new_items food_data (dom coll)).
Qed.





(** ** The answer pipeline *)

(** The [except] clauses of [_process_question] show one error dialog, set
    the status label and enable the Ask button again. *)
Lemma question_failed_run (e : PyExc) (w : World) :
  ∃ title message status,
    question_failed e w
    = (Returned tt,
       record (AskButton true)
         (record (StatusLabel status) (record (ShowError title message) w))).
Proof.
  unfold question_failed, except_clauses.
  destruct (is_ConnectionError (exc_class e)); [| destruct (is_Timeout (exc_class e))];
    do 3 eexists; reflexivity.
Qed.

(** A run of [_process_question] in which the question was embedded: it
    queries the collection for 3 entries, posts the prompt built from the
    ranked documents, and then only updates widgets. *)
Lemma process_question_embedded (env : Env) (question : string) (w : World)
    (q_emb : json) :
  embedding_of_reply (embed_service env (w_log (getting_embedding w)) question)
  = Some q_emb →
  ∃ tail,
    (_process_question env question w).1 = Returned tt
    ∧ w_coll (_process_question env question w).2 = w_coll w
    ∧ w_log (_process_question env question w).2
      = w_log (generating question q_emb w)
        ++ GenerateRequest LLM_MODEL
             (build_prompt
                (build_context (fst ∘ snd <$> nearest env (w_coll w) q_emb 3))
                question)
        :: tail
    ∧ generated tail = [] ∧ embedded tail = [] ∧ added tail = [].
Proof.
  intros Hreply.
  pose proof (get_embedding_run env question (getting_embedding w)) as Hget.
  rewrite Hreply in Hget.
  unfold _process_question, try_except.
  cbv [mbind Py_bind emit].
  fold (getting_embedding w). rewrite Hget.
  cbv [collection_query post_generate].
  fold (generating question q_emb w).
  change (w_coll (requested question (getting_embedding w))) with (w_coll w).
  set (prompt := build_prompt _ question).
  set (results := nearest env (w_coll w) q_emb 3).
  set (w1 := record (GenerateRequest LLM_MODEL prompt) (generating question q_emb w)).
  assert (∀ e, ∃ tail,
            (question_failed e w1).1 = Returned tt
            ∧ w_coll (question_failed e w1).2 = w_coll w
            ∧ w_log (question_failed e w1).2
              = w_log (generating question q_emb w)
                ++ GenerateRequest LLM_MODEL prompt :: tail
            ∧ generated tail = [] ∧ embedded tail = [] ∧ added tail = [])
    as Hfailed.
  { intros e. destruct (question_failed_run e w1) as (title & message & status & ->).
    exists [ShowError title message; StatusLabel status; AskButton true].
    split; [done |]. split; [done |]. split; [| done].
    simpl. by rewrite <- !app_assoc. }
  destruct (generate_service env (w_log (generating question q_emb w)) prompt)
    as [e | response]; [apply Hfailed |].
  fold w1. unfold raise_for_status.
  destruct (is_http_error (status_code response)); [apply Hfailed |].
  cbv [mret Py_ret]. unfold response_json.
  destruct (body response) as [value | msg]; [| apply Hfailed].
  cbv [mret Py_ret].
  destruct value; try apply Hfailed.
  unfold getitem.
  destruct (obj_lookup "response" fields) as [field|]; [| apply Hfailed].
  cbv [mret Py_ret].
  destruct field; try apply Hfailed.
  cbv [json_strip mret Py_ret].
  eexists [OutputInsert _; OutputSee; StatusLabel "Ready"; EntryDelete; AskButton true].
  split; [done |]. split; [done |]. split; [| done].
  simpl. by rewrite <- !app_assoc.
Qed.

Lemma generated_app (l1 l2 : list Event) :
  generated (l1 ++ l2) = generated l1 ++ generated l2.
Proof.
  induction l1 as [|e l1 IH]; simpl; [done |].
  destruct e; simpl; by rewrite ?IH.
Qed.

Lemma generated_prints (lines : list string) : generated (Print <$> lines) = [].
Proof. induction lines as [|l lines IH]; simpl; done. Qed.

Lemma errors_shown_app (l1 l2 : list Event) :
  errors_shown (l1 ++ l2) = errors_shown l1 ++ errors_shown l2.
Proof.
  induction l1 as [|e l1 IH]; simpl; [done |].
  destruct e; simpl; by rewrite ?IH.
Qed.

Lemma errors_shown_prints (lines : list string) : errors_shown (Print <$> lines) = [].
Proof. induction lines as [|l lines IH]; simpl; done. Qed.

(** A run of [_process_question] in which the question was not embedded:
    [sys.exit(1)] of [get_embedding] passes the [except] clauses. *)
Lemma process_question_exits (env : Env) (question : string) (w : World) :
  embedding_of_reply (embed_service env (w_log (getting_embedding w)) question) = None →
  ∃ lines,
    _process_question env question w
    = (Exited 1, printed lines (requested question (getting_embedding w))).
Proof.
  intros Hreply.
  pose proof (get_embedding_run env question (getting_embedding w)) as Hget.
  rewrite Hreply in Hget. destruct Hget as [lines Hget]. exists lines.
  unfold _process_question, try_except.
  cbv [mbind Py_bind emit].
  fold (getting_embedding w). by rewrite Hget.
Qed.

(** The composition example of section 8: one indexed document, an echoing
    generation service. *)
Example pipeline_composition :
  generated (w_log (_process_question (env_up DupRaise) "What is sushi?" (start indexed)).2)
  = ["Use the following context to answer the question." +:+ NL +:+ NL
     +:+ "Context:" +:+ NL +:+ "Sushi is a Japanese dish." +:+ NL +:+ NL
     +:+ "Question: What is sushi?" +:+ NL +:+ "Answer:"].
Proof. vm_compute. reflexivity. Qed.



(** C6 (failure surfacing), evaluated where the code departs from it: when the
    embedding request times out, [_process_question] does not end in its
    timeout clause.  [get_embedding] has printed a line and called
    [sys.exit(1)], which no [except] clause catches: no error dialog is shown
    and the Ask button, disabled by [ask_question], is not enabled again.  The
    generation service is not called.  A timeout of the generation request, on
    the other path, does reach the timeout clause. *)
Theorem embedding_timeout_exits :
  _process_question env_timeout "What is sushi?" (start indexed)
  = (Exited 1,
     {| w_coll := indexed;
        w_log := [StatusLabel "Getting embedding..."; RootUpdate;
                  EmbedRequest EMBED_MODEL "What is sushi?";
                  Print "❌ Error: Request to Ollama timed out"] |})
  ∧ w_log (ask_question env_timeout "What is sushi?" (start indexed)).2
    = [AskButton false;
       StatusLabel "Processing... retrieving documents and generating answer";
       RootUpdate; ThreadStart "What is sushi?";
       StatusLabel "Getting embedding..."; RootUpdate;
       EmbedRequest EMBED_MODEL "What is sushi?";
       Print "❌ Error: Request to Ollama timed out"]
  ∧ (_process_question env_generation_timeout "What is sushi?" (start indexed)).1
    = Returned tt
  ∧ errors_shown
      (w_log (_process_question env_generation_timeout "What is sushi?" (start indexed)).2)
    = [("Timeout Error", "Request to Ollama timed out")].
Proof. repeat split; vm_compute; reflexivity. Qed.

(** In general: a failed embedding request ends [_process_question] with
    [sys.exit(1)], with no error dialog and no generation request. *)
Lemma embedding_failure_not_surfaced (env : Env) (question : string) (w : World) :
  embedding_of_reply (embed_service env (w_log (getting_embedding w)) question) = None →
  (_process_question env question w).1 = Exited 1
  ∧ errors_shown (w_log (_process_question env question w).2) = errors_shown (w_log w)
  ∧ generated (w_log (_process_question env question w).2) = generated (w_log w).
Proof.
  intros Hreply.
  destruct (process_question_exits env question w Hreply) as [lines ->]. simpl.
  rewrite !generated_app, generated_prints, !errors_shown_app, errors_shown_prints.
  simpl. by rewrite !app_nil_r.
Qed.

(** ** The empty-question guard *)

Lemma lstrip_whitespace_only (s : string) : whitespace_only s = true → lstrip s = "".
Proof.
  induction s as [|c s IH]; simpl; [done |].
  intros [Hc Hs]%andb_prop. rewrite Hc. by apply IH.
Qed.

(** A question made of blanks, tabs and line ends is empty once stripped. *)
Lemma strip_whitespace_only (s : string) : whitespace_only s = true → strip s = "".
Proof. intros Hs. unfold strip. by rewrite lstrip_whitespace_only. Qed.

(** C8 (empty-question guard): when the content of the question entry is empty
    once stripped, [ask_question] shows the warning dialog and returns: no
    worker is started, nothing is sent to the embedding or the generation
    service, the collection is not queried and no error dialog is shown. *)
Theorem empty_question_rejected (env : Env) (entry : string) (w : World) :
  strip entry = "" →
  ask_question env entry w
  = (Returned tt, record (ShowWarning "Warning" "Please enter a question!") w)
  ∧ embedded (w_log (ask_question env entry w).2) = embedded (w_log w)
  ∧ generated (w_log (ask_question env entry w).2) = generated (w_log w)
  ∧ errors_shown (w_log (ask_question env entry w).2) = errors_shown (w_log w)
  ∧ w_coll (ask_question env entry w).2 = w_coll w.
Proof.
  intros Hempty. unfold ask_question. rewrite Hempty.
  split; [done |]. simpl.
  rewrite embedded_app, generated_app, errors_shown_app. simpl.
  by rewrite !app_nil_r.
Qed.

Lemma empty_question_rejected_witness :
  strip ("  " +:+ NL +:+ " ") = ""
  ∧ ask_question (env_up DupRaise) ("  " +:+ NL +:+ " ") (start indexed)
    = (Returned tt,
       {| w_coll := indexed;
          w_log := [ShowWarning "Warning" "Please enter a question!"] |}).
Proof.
  split; [vm_compute; reflexivity |].
  apply (empty_question_rejected (env_up DupRaise) ("  " +:+ NL +:+ " ") (start indexed)).
  vm_compute; reflexivity.
Defined.

(** A question that is not empty once stripped reaches the worker. *)
Lemma ask_question_starts (env : Env) (entry : string) (w : World) :
  strip entry ≠ "" →
  ∃ events,
    w_log (ask_question env entry w).2
    = w_log w ++ AskButton false
              :: StatusLabel "Processing... retrieving documents and generating answer"
              :: RootUpdate :: ThreadStart (strip entry) :: events.
Proof.
  intros Hquestion. unfold ask_question.
  destruct (strip entry) as [|c question] eqn:Hstrip; [done |].
  cbv [mbind Py_bind emit thread_start]. simpl.
  set (w1 := record _ (record _ (record _ (record _ w)))).
  pose proof (get_embedding_run env (String c question)
                (getting_embedding w1)) as Hget.
  destruct (embedding_of_reply _) as [q_emb|] eqn:Hreply.
  - destruct (process_question_embedded env (String c question) w1 q_emb Hreply)
      as (tail & _ & _ & -> & _).
    eexists. simpl. rewrite <- !app_assoc. simpl. done.
  - destruct (process_question_exits env (String c question) w1 Hreply) as [lines ->].
    eexists. simpl. rewrite <- !app_assoc. simpl. done.
Qed.

(** ** Where the exit of the embedding client ends *)




(** ** Query bounds *)

#[global] Instance closer_total env q : Total (closer env q).
Proof.
  intros a b. unfold closer.
  destruct (Qlt_le_dec (distance env q (snd (snd a))) (distance env q (snd (snd b))));
    [left; by apply Qlt_le_weak | by right].
Qed.

#[global] Instance closer_transitive env q : Transitive (closer env q).
Proof. intros a b c. unfold closer. apply Qle_trans. Qed.

Example query_ranked :
  nearest env_line on_a_line (JArr [JInt 0]) 2
  = [("near", ("Near.", JArr [JInt 1])); ("mid", ("Mid.", JArr [JInt (-4)]))]
  ∧ (fst <$> nearest env_line on_a_line (JArr [JInt 0]) 3) = ["near"; "mid"; "far"]
  ∧ (fst <$> nearest env_line on_a_line (JArr [JInt 0]) 5) = ["near"; "mid"; "far"]
  ∧ nearest env_line ∅ (JArr [JInt 0]) 3 = [].
Proof. repeat split; vm_compute; reflexivity. Qed.

(** C7 (query bounds): on a collection of n entries, the query for k entries
    returns, without error, min(n, k) stored entries ranked by ascending
    distance to the query vector, and no stored entry that is left out is
    nearer than a returned one. *)
Theorem query_bounds (env : Env) (q : json) (k : nat) (w : World) :
  let results := nearest env (w_coll w) q k in
  collection_query env q k w = (Returned results, record (CollectionQuery q k) w)
  ∧ length results = Nat.min (size (w_coll w)) k
  ∧ StronglySorted (closer env q) results
  ∧ NoDup results
  ∧ (∀ id doc emb, (id, (doc, emb)) ∈ results → w_coll w !! id = Some (doc, emb))
  ∧ (∀ id doc emb x,
       w_coll w !! id = Some (doc, emb) → (id, (doc, emb)) ∉ results →
       x ∈ results → closer env q x (id, (doc, emb))).
Proof.
  intros results. unfold results, nearest.
  set (ranked := merge_sort (closer env q) (map_to_list (w_coll w))).
  assert (ranked ≡ₚ map_to_list (w_coll w)) as Hperm by apply merge_sort_Permutation.
  assert (StronglySorted (closer env q) ranked) as Hsorted
    by (apply StronglySorted_merge_sort; apply _).
  rewrite <- (take_drop k ranked) in Hsorted.
  split; [done |]. split; [| split; [| split; [| split]]].
  - rewrite length_take, Hperm, length_map_to_list. lia.
  - by apply StronglySorted_app_1_l in Hsorted.
  - apply (NoDup_app (take k ranked) (drop k ranked)).
    rewrite take_drop, Hperm. apply NoDup_map_to_list.
  - intros id doc emb Hin. apply elem_of_map_to_list. rewrite <- Hperm.
    rewrite <- (take_drop k ranked). apply elem_of_app. by left.
  - intros id doc emb x Hstored Hout Hx.
    eapply StronglySorted_app_1_elem_of; [exact Hsorted | exact Hx |].
    apply elem_of_map_to_list in Hstored. rewrite <- Hperm in Hstored.
    rewrite <- (take_drop k ranked) in Hstored.
    apply elem_of_app in Hstored as [? | ?]; done.
Qed.

(** * Further properties *)

(** ** What the embedding client reports *)

(** X1 (order of the except clauses in the embedding client): when
    [requests.post] raises, [get_embedding] prints the two connection lines for
    a [ConnectionError], also for a [ConnectTimeout], which is a [Timeout] as
    well; the timeout line for the other timeouts; the exception's text for
    anything else; and it leaves through [sys.exit(1)] in each case. *)
Theorem get_embedding_transport_report (env : Env) (text : string) (w : World)
    (e : PyExc) :
  embed_service env (w_log w) text = TransportError e →
  get_embedding env text w
  = (Exited 1,
     printed
       match exc_class e with
       | ConnectionError | ConnectTimeout =>
           ["❌ Error: Cannot connect to Ollama at http://localhost:11434";
            "   Please ensure Ollama is running. Start it with: ollama serve"]
       | Timeout | ReadTimeout => ["❌ Error: Request to Ollama timed out"]
       | _ => ["❌ Error getting embedding: " +:+ exc_str e]
       end
       (requested text w)).
Proof.
  intros Hreply.
  unfold get_embedding, try_except. rewrite bind_run.
  unfold post_embeddings. rewrite Hreply.
  unfold embedding_failed, except_clauses.
  destruct (exc_class e); simpl;
    cbv [mbind Py_bind print emit sys_exit];
    rewrite ?printed_two, ?printed_one; reflexivity.
Qed.

Lemma get_embedding_transport_report_witness :
  embed_service (env_replying (TransportError connect_timeout)) [] "Ramen"
  = TransportError connect_timeout
  ∧ get_embedding (env_replying (TransportError connect_timeout)) "Ramen" (start ∅)
    = (Exited 1,
       {| w_coll := ∅;
          w_log := [EmbedRequest EMBED_MODEL "Ramen";
                    Print "❌ Error: Cannot connect to Ollama at http://localhost:11434";
                    Print "   Please ensure Ollama is running. Start it with: ollama serve"]
       |}).
Proof.
  split; [reflexivity |].
  apply (get_embedding_transport_report
           (env_replying (TransportError connect_timeout)) "Ramen" (start ∅) connect_timeout).
  reflexivity.
Defined.

(** X2 (what a response can do to the embedding client): the status is
    checked before the body is read, so an error status ends the client with
    the HTTP error text even when the body carries an embedding; a body that is
    no JSON ends it with the decoder's text; a JSON object without the
    "embedding" key ends it with the text of the [KeyError], the quoted key. *)
Theorem get_embedding_response_report (env : Env) (text : string) (w : World)
    (r : Response) :
  embed_service env (w_log w) text = HttpResponse r →
  if is_http_error (status_code r) then
    get_embedding env text w
    = (Exited 1,
       printed ["❌ Error getting embedding: "
                +:+ pretty (status_code r)
                +:+ (if status_code r <? 500 then " Client Error: " else " Server Error: ")
                +:+ reason r +:+ " for url: http://localhost:11434/api/embeddings"]
               (requested text w))
  else
    match body r with
    | Malformed msg =>
        get_embedding env text w
        = (Exited 1, printed ["❌ Error getting embedding: " +:+ msg] (requested text w))
    | Parsed (JObj fields) =>
        match obj_lookup "embedding" fields with
        | Some v => get_embedding env text w = (Returned v, requested text w)
        | None =>
            get_embedding env text w
            = (Exited 1,
               printed ["❌ Error getting embedding: 'embedding'"] (requested text w))
        end
    | Parsed _ => (get_embedding env text w).1 = Exited 1
    end.
Proof.
  intros Hreply.
  unfold get_embedding, try_except. rewrite bind_run.
  unfold post_embeddings. rewrite Hreply.
  rewrite bind_run. unfold raise_for_status.
  destruct (is_http_error (status_code r)); [reflexivity |].
  simpl. rewrite bind_run. unfold response_json.
  destruct (body r) as [value | msg]; [| reflexivity].
  simpl. destruct value; try reflexivity.
  simpl. destruct (obj_lookup "embedding" fields); reflexivity.
Qed.

Lemma get_embedding_response_report_witness :
  embed_service (env_replying (HttpResponse server_error)) [] "Ramen"
  = HttpResponse server_error
  ∧ get_embedding (env_replying (HttpResponse server_error)) "Ramen" (start ∅)
    = (Exited 1,
       {| w_coll := ∅;
          w_log := [EmbedRequest EMBED_MODEL "Ramen";
                    Print ("❌ Error getting embedding: 500 Server Error: "
                           +:+ "Internal Server Error for url: "
                           +:+ "http://localhost:11434/api/embeddings")] |}).
Proof.
  split; [reflexivity |].
  apply (get_embedding_response_report
           (env_replying (HttpResponse server_error)) "Ramen" (start ∅) server_error).
  reflexivity.
Defined.

(** ** More on the ingestion step *)

Lemma embedded_prints (lines : list string) : embedded (Print <$> lines) = [].
Proof. induction lines as [|l lines IH]; simpl; done. Qed.

(** The requests and the [collection.add] calls of the loop go through the
    items in step: one request per call, and one more when the loop leaves
    through [sys.exit]. *)
Lemma loop_run_requests env items w r w' :
  loop_run env items w r w' →
  ∃ j k,
    added (w_log w') = added (w_log w) ++ (item_pair <$> take j items)
    ∧ embedded (w_log w') = embedded (w_log w) ++ (enriched_text <$> take k items)
    ∧ (j ≤ length items)%nat
    ∧ match r with
      | Exited _ => k = S j ∧ (j < length items)%nat
      | _ => k = j
      end.
Proof.
  induction 1 as [w | item rest w lines Hreply | item rest w emb Hreply Hid Hpolicy
                 | item rest w emb r w' Hreply Hid Hpolicy Hrest (j & k & IHa & IHe & Hj & Hk)
                 | item rest w emb r w' Hreply Hid Hrest (j & k & IHa & IHe & Hj & Hk)].
  - exists 0%nat, 0%nat. simpl. rewrite !app_nil_r. repeat split; lia.
  - exists 0%nat, 1%nat. simpl.
    rewrite !added_app, !embedded_app, added_prints, embedded_prints. simpl.
    rewrite !app_nil_r. repeat split; lia.
  - exists 1%nat, 1%nat. simpl. rewrite !added_app, !embedded_app. simpl.
    rewrite !app_nil_r. repeat split; lia.
  - exists (S j), (S k). rewrite IHa, IHe. simpl.
    rewrite !added_app, !embedded_app. simpl. rewrite !app_nil_r, <- !app_assoc.
    repeat split; [lia |]. destruct r; [lia | lia |]. destruct Hk. split; lia.
  - exists (S j), (S k). rewrite IHa, IHe. simpl.
    rewrite !added_app, !embedded_app. simpl. rewrite !app_nil_r, <- !app_assoc.
    repeat split; [lia |]. destruct r; [lia | lia |]. destruct Hk. split; lia.
Qed.

(** The loop of a run, whatever its corpus. *)
Lemma run_ingestion_loop (env : Env) (food_data : list Item) (coll : Collection) :
  new_items food_data (dom coll) = []
  ∧ run_ingestion env food_data coll = (Returned tt, nothing_to_add coll)
  ∨ new_items food_data (dom coll) ≠ []
    ∧ loop_run env (new_items food_data (dom coll))
               (announced (new_items food_data (dom coll)) coll)
               (run_ingestion env food_data coll).1
               (run_ingestion env food_data coll).2.
Proof.
  destruct (new_items food_data (dom coll)) as [|x new] eqn:Hnew.
  - left. split; [done |]. by rewrite run_ingestion_run, Hnew.
  - right. split; [done |]. rewrite run_ingestion_new by (by rewrite Hnew).
    rewrite Hnew. apply for_each_loop_run.
Qed.

(** X3 (ingestion embeds new records only): in every run of the ingestion
    step the texts sent to the embedding service are the enriched texts of the
    first k new records, in corpus order, and [collection.add] was called for
    the first j of them, with k = j, or k = j + 1 when the run left through
    [sys.exit].  No request is made for a record whose id is stored. *)
Theorem ingestion_embeds_new_only (env : Env) (food_data : list Item)
    (coll : Collection) :
  ∃ j k,
    added (w_log (run_ingestion env food_data coll).2)
    = item_pair <$> take j (new_items food_data (dom coll))
    ∧ embedded (w_log (run_ingestion env food_data coll).2)
      = enriched_text <$> take k (new_items food_data (dom coll))
    ∧ (j ≤ length (new_items food_data (dom coll)))%nat
    ∧ match (run_ingestion env food_data coll).1 with
      | Exited _ => k = S j
      | _ => k = j
      end
    ∧ ∀ text, text ∈ embedded (w_log (run_ingestion env food_data coll).2) →
        ∃ item, item ∈ food_data ∧ (item_id item ∉ dom coll) ∧ text = enriched_text item.
Proof.
  assert (∀ k text,
            text ∈ enriched_text <$> take k (new_items food_data (dom coll)) →
            ∃ item, item ∈ food_data ∧ (item_id item ∉ dom coll)
                    ∧ text = enriched_text item) as Hnew_only.
  { intros k text Hin. apply list_elem_of_fmap in Hin as (item & -> & Hitem).
    apply elem_of_take in Hitem as (i & Hi & _).
    apply list_elem_of_lookup_2, elem_of_new_items in Hi as [? ?]. by exists item. }
  destruct (run_ingestion_loop env food_data coll) as [[Hnew ->] | [Hnew Hloop]].
  - exists 0%nat, 0%nat. rewrite Hnew. simpl. repeat split; try done.
    intros text Hin. by apply elem_of_nil in Hin.
  - apply loop_run_requests in Hloop as (j & k & Hadded & Hembedded & Hj & Hk).
    simpl in Hadded, Hembedded.
    exists j, k. split; [done |]. split; [done |]. split; [done |]. split.
    + destruct (run_ingestion env food_data coll).1; [done | done | by destruct Hk].
    + intros text Hin. rewrite Hembedded in Hin. by eapply Hnew_only.
Qed.

(** X4 (ingestion only adds): whatever the outcome of a run, every entry the
    collection held before is still there unchanged, and every id it holds
    afterwards was there before or is the id of a record of the corpus. *)
Theorem ingestion_only_adds (env : Env) (food_data : list Item) (coll : Collection) :
  coll ⊆ w_coll (run_ingestion env food_data coll).2
  ∧ dom (w_coll (run_ingestion env food_data coll).2)
    ⊆ dom coll ∪ list_to_set (item_id <$> food_data).
Proof.
  destruct (run_ingestion_loop env food_data coll) as [[Hnew ->] | [Hnew Hloop]].
  { simpl. split; [done | set_solver]. }
  split.
  - by apply loop_run_subseteq in Hloop.
  - intros id [[doc emb] Hentry]%elem_of_dom.
    destruct (loop_run_entries _ _ _ _ _ Hloop _ _ _ Hentry)
      as [Hold | (_ & item & Hitem & -> & _)].
    + apply elem_of_union_l, elem_of_dom. by eexists.
    + apply elem_of_union_r, elem_of_list_to_set, list_elem_of_fmap_2.
      by apply elem_of_new_items in Hitem as [_ ?].
Qed.

(** X5 (a complete run): when the ids of the corpus are pairwise distinct and
    the run returned, the collection holds the ids it held before and those of
    the corpus, each record that was not stored is stored with its own text,
    one entry per new record, and [collection.add] was called exactly for the
    new records, in corpus order. *)
Theorem ingestion_complete (env : Env) (food_data : list Item) (coll : Collection) :
  NoDup (item_id <$> food_data) →
  (run_ingestion env food_data coll).1 = Returned tt →
  dom (w_coll (run_ingestion env food_data coll).2)
  = dom coll ∪ list_to_set (item_id <$> food_data)
  ∧ (∀ item, item ∈ food_data → coll !! item_id item = None →
       ∃ emb, w_coll (run_ingestion env food_data coll).2 !! item_id item
              = Some (item_text item, emb))
  ∧ size (w_coll (run_ingestion env food_data coll).2)
    = (size coll + length (new_items food_data (dom coll)))%nat
  ∧ added (w_log (run_ingestion env food_data coll).2)
    = item_pair <$> new_items food_data (dom coll).
Proof.
  intros Hdup Hreturned.
  assert (dom coll ∪ list_to_set (item_id <$> new_items food_data (dom coll))
          =@{gset string} dom coll ∪ list_to_set (item_id <$> food_data)) as Hids.
  { apply set_eq. intros id.
    rewrite !elem_of_union, !elem_of_list_to_set, !list_elem_of_fmap. split.
    - intros [? | (item & -> & Hitem)]; [by left |].
      right. exists item. split; [done |]. by apply elem_of_new_items in Hitem as [_ ?].
    - intros [? | (item & -> & Hitem)]; [by left |].
      destruct (decide (item_id item ∈ dom coll)); [by left |].
      right. exists item. split; [done |]. by apply elem_of_new_items. }
  destruct (run_ingestion_loop env food_data coll) as [[Hnew ->] | [Hnew Hloop]].
  { rewrite <- Hids, Hnew. simpl. split; [set_solver |].
    split; [| split; [lia | done]].
    intros item Hitem Hnone.
    assert (item ∈ new_items food_data (dom coll)) as Hin
      by (apply elem_of_new_items; split; [by apply not_elem_of_dom | done]).
    rewrite Hnew in Hin. by apply elem_of_nil in Hin. }
  assert (∀ item, item ∈ new_items food_data (dom coll) → coll !! item_id item = None)
    as Hfresh.
  { intros item Hitem. apply elem_of_new_items in Hitem as [Hitem _].
    by apply not_elem_of_dom in Hitem. }
  destruct (loop_run_fresh _ _ (announced (new_items food_data (dom coll)) coll) _ _
              (new_items_NoDup _ _ Hdup) Hfresh Hloop)
    as (kept & rest & Hsplit & Hadded & Hdom & Hentries & Hr & _).
  rewrite Hreturned in Hr. subst rest.
  rewrite app_nil_r in Hsplit. subst kept. simpl in Hadded, Hdom.
  split; [by rewrite Hdom |].
  split; [| split; [| done]].
  - intros item Hitem Hnone. apply Hentries, elem_of_new_items.
    split; [by apply not_elem_of_dom | done].
  - rewrite <- (size_dom (D := gset string)), Hdom, size_union, size_dom.
    + rewrite size_list_to_set, length_fmap; [done |]. by apply new_items_NoDup.
    + intros id Hold (item & -> & Hitem)%elem_of_list_to_set%list_elem_of_fmap.
      by apply elem_of_new_items in Hitem as [? _].
Qed.

Lemma ingestion_complete_witness :
  NoDup (item_id <$> [sushi; ramen; bread])
  ∧ (run_ingestion (env_up DupRaise) [sushi; ramen; bread] indexed).1 = Returned tt
  ∧ size (w_coll (run_ingestion (env_up DupRaise) [sushi; ramen; bread] indexed).2) = 3%nat
  ∧ added (w_log (run_ingestion (env_up DupRaise) [sushi; ramen; bread] indexed).2)
    = [("a2", "Ramen is a noodle soup."); ("a3", "Bread is baked.")].
Proof.
  assert (NoDup (item_id <$> [sushi; ramen; bread])) as Hdup by compute_done.
  assert ((run_ingestion (env_up DupRaise) [sushi; ramen; bread] indexed).1 = Returned tt)
    as Hreturned by (vm_compute; reflexivity).
  destruct (ingestion_complete (env_up DupRaise) [sushi; ramen; bread] indexed
              Hdup Hreturned)
    as (_ & _ & Hsize & Hadded).
  split; [exact Hdup |]. split; [exact Hreturned |].
  split; [rewrite Hsize; vm_compute; reflexivity |].
  rewrite Hadded. vm_compute. reflexivity.
Defined.

(** X6 (nothing to add): a run reports that all documents are present, and
    does nothing else, exactly when every id of the corpus is stored; it then
    sends no request, whatever the state of the embedding service.  An empty
    corpus is such a case, also on an empty collection. *)
Theorem ingestion_nothing_to_add (env : Env) (food_data : list Item)
    (coll : Collection) :
  (∀ item, item ∈ food_data → item_id item ∈ dom coll)
  ↔ run_ingestion env food_data coll = (Returned tt, nothing_to_add coll).
Proof.
  split.
  - intros Hall. rewrite run_ingestion_run. by rewrite (new_items_nil _ _ Hall).
  - intros Hrun item Hitem.
    destruct (run_ingestion_loop env food_data coll) as [[Hnew _] | [Hnew Hloop]].
    + destruct (decide (item_id item ∈ dom coll)) as [? | Hnot]; [done |].
      assert (item ∈ new_items food_data (dom coll)) as Hin
        by by apply elem_of_new_items.
      rewrite Hnew in Hin. by apply elem_of_nil in Hin.
    + apply loop_run_log in Hloop as [events Hlog].
      rewrite Hrun in Hlog. simpl in Hlog. discriminate Hlog.
Qed.

(** ** More on the answer pipeline *)

Lemma queried_app (l1 l2 : list Event) : queried (l1 ++ l2) = queried l1 ++ queried l2.
Proof.
  induction l1 as [|e l1 IH]; simpl; [done |].
  destruct e; simpl; by rewrite ?IH.
Qed.

Lemma shown_app (l1 l2 : list Event) : shown (l1 ++ l2) = shown l1 +:+ shown l2.
Proof.
  induction l1 as [|e l1 IH]; simpl; [done |].
  destruct e; simpl; rewrite ?IH, ?append_assoc; done.
Qed.

Lemma entry_deletes_app (l1 l2 : list Event) :
  entry_deletes (l1 ++ l2) = (entry_deletes l1 + entry_deletes l2)%nat.
Proof.
  induction l1 as [|e l1 IH]; simpl; [done |].
  destruct e; simpl; by rewrite ?IH.
Qed.

Lemma ask_button_app (enabled : bool) (l1 l2 : list Event) :
  ask_button enabled (l1 ++ l2) = ask_button (ask_button enabled l1) l2.
Proof.
  revert enabled. induction l1 as [|e l1 IH]; intros enabled; simpl; [done |].
  destruct e; simpl; by rewrite ?IH.
Qed.

Lemma ask_button_prints (enabled : bool) (lines : list string) :
  ask_button enabled (Print <$> lines) = enabled.
Proof. induction lines as [|l lines IH]; simpl; done. Qed.

(** The dialog and the status of the [except] clauses depend on the
    exception only. *)
Lemma question_failed_uniform (e : PyExc) :
  ∃ title message status, ∀ w,
    question_failed e w
    = (Returned tt,
       record (AskButton true)
         (record (StatusLabel status) (record (ShowError title message) w))).
Proof.
  unfold question_failed, except_clauses.
  destruct (is_ConnectionError (exc_class e)); [| destruct (is_Timeout (exc_class e))];
    do 3 eexists; intros w; reflexivity.
Qed.

(** A run of [_process_question] after the question was embedded, by the
    reply of the generation service. *)
Lemma process_question_generated (env : Env) (question : string) (w : World)
    (q_emb : json) :
  embedding_of_reply (embed_service env (w_log (getting_embedding w)) question)
  = Some q_emb →
  let results := nearest env (w_coll w) q_emb 3 in
  let prompt := build_prompt (build_context (fst ∘ snd <$> results)) question in
  let reply := generate_service env (w_log (generating question q_emb w)) prompt in
  match answer_of_reply reply with
  | Some answer =>
      _process_question env question w
      = (Returned tt,
         {| w_coll := w_coll w;
            w_log := w_log w ++ asking_events question q_emb prompt
                     ++ [OutputInsert (answer_output question results answer);
                         OutputSee; StatusLabel "Ready"; EntryDelete; AskButton true] |})
  | None =>
      ∃ e title message status,
        _process_question env question w
        = (Returned tt,
           {| w_coll := w_coll w;
              w_log := w_log w ++ asking_events question q_emb prompt
                       ++ [ShowError title message; StatusLabel status;
                           AskButton true] |})
        ∧ question_failed e (start ∅)
          = (Returned tt,
             {| w_coll := ∅;
                w_log := [ShowError title message; StatusLabel status; AskButton true] |})
        ∧ match reply with
          | TransportError e' => e = e'
          | HttpResponse response =>
              is_ConnectionError (exc_class e) = false ∧ is_Timeout (exc_class e) = false
              ∧ (raise_for_status GENERATE_URL response;;
                 value ← response_json response;
                 field ← getitem value "response";
                 json_strip field) (start ∅)
                = (Raised e, start ∅)
          end
  end.
Proof.
  intros Hreply results prompt reply.
  pose proof (get_embedding_run env question (getting_embedding w)) as Hget.
  rewrite Hreply in Hget.
  unfold _process_question, try_except.
  cbv [mbind Py_bind emit].
  fold (getting_embedding w). rewrite Hget.
  cbv [collection_query post_generate].
  fold (generating question q_emb w).
  change (w_coll (requested question (getting_embedding w))) with (w_coll w).
  fold results. fold prompt. fold reply.
  set (w1 := record (GenerateRequest LLM_MODEL prompt) (generating question q_emb w)).
  assert (∀ e, ∃ title message status,
            question_failed e w1
            = (Returned tt,
               {| w_coll := w_coll w;
                  w_log := w_log w ++ asking_events question q_emb prompt
                           ++ [ShowError title message; StatusLabel status;
                               AskButton true] |})
            ∧ question_failed e (start ∅)
              = (Returned tt,
                 {| w_coll := ∅;
                    w_log := [ShowError title message; StatusLabel status;
                              AskButton true] |})) as Hfailed.
  { intros e.
    destruct (question_failed_uniform e) as (title & message & status & Hall).
    exists title, message, status. split; [| apply Hall].
    rewrite Hall. unfold w1, generating, requested, getting_embedding, asking_events,
      record. simpl. by rewrite <- !app_assoc. }
  unfold answer_of_reply.
  destruct reply as [e | response].
  { destruct (Hfailed e) as (title & message & status & H1 & H2).
    by exists e, title, message, status. }
  unfold raise_for_status.
  destruct (is_http_error (status_code response)).
  { destruct (Hfailed (mkExc HTTPError
                         (pretty (status_code response)
                          +:+ (if status_code response <? 500
                               then " Client Error: " else " Server Error: ")
                          +:+ reason response +:+ " for url: " +:+ GENERATE_URL)))
      as (title & message & status & H1 & H2).
    by eexists _, title, message, status. }
  cbv [mret Py_ret]. unfold response_json.
  destruct (body response) as [value | msg].
  2: { destruct (Hfailed (mkExc JSONDecodeError msg)) as (title & message & status & H1 & H2).
       by eexists _, title, message, status. }
  cbv [mret Py_ret].
  destruct value;
    try (match goal with
         | |- context [getitem ?v "response" ?w0] =>
             match eval cbv [getitem raise] in (getitem v "response" w0) with
             | (Raised ?e, _) =>
                 destruct (Hfailed e) as (title & message & status & H1 & H2);
                 by eexists _, title, message, status
             end
         end).
  unfold getitem.
  destruct (obj_lookup "response" fields) as [field|].
  2: { destruct (Hfailed (mkExc KeyError ("'" +:+ "response" +:+ "'")))
         as (title & message & status & H1 & H2).
       by eexists _, title, message, status. }
  cbv [mret Py_ret].
  destruct field;
    try (match goal with
         | |- context [json_strip ?v ?w0] =>
             match eval cbv [json_strip raise] in (json_strip v w0) with
             | (Raised ?e, _) =>
                 destruct (Hfailed e) as (title & message & status & H1 & H2);
                 by eexists _, title, message, status
             end
         end).
  cbv [json_strip mret Py_ret]. f_equal.
  unfold w1, generating, requested, getting_embedding, asking_events, record,
    answer_output. simpl. by rewrite <- !app_assoc.
Qed.

(** X8 (an answered question): in a run of [_process_question] that posts a
    prompt to which the generation service responds with a string, the run
    returns after these events, in this order: the two requests around the
    query for 3 entries, then one insertion into the output pane, then the
    status "Ready", the emptying of the entry and the enabling of the Ask
    button.  The text inserted is the question between two rules, the title
    of the sources, one numbered block per returned entry with its id and its
    document in ranked order, and the stripped response under its own title.
    No error dialog is shown and the collection is left as it was. *)
Theorem question_answered (env : Env) (question : string) (w : World)
    (q_emb : json) (prompt answer : string) :
  embedding_of_reply (embed_service env (w_log (getting_embedding w)) question)
  = Some q_emb →
  generated (w_log (_process_question env question w).2)
  = generated (w_log w) ++ [prompt] →
  answer_of_reply (generate_service env (w_log (generating question q_emb w)) prompt)
  = Some answer →
  ∃ sources output,
    match nearest env (w_coll w) q_emb 3 with
    | [] => sources = ""
    | [(id1, (doc1, _))] =>
        sources
        = NL +:+ "🔹 Source 1 (ID: " +:+ id1 +:+ "):" +:+ NL +:+ "    " +:+ doc1 +:+ NL
    | [(id1, (doc1, _)); (id2, (doc2, _))] =>
        sources
        = (NL +:+ "🔹 Source 1 (ID: " +:+ id1 +:+ "):" +:+ NL +:+ "    " +:+ doc1 +:+ NL)
          +:+ (NL +:+ "🔹 Source 2 (ID: " +:+ id2 +:+ "):" +:+ NL +:+ "    " +:+ doc2 +:+ NL)
    | [(id1, (doc1, _)); (id2, (doc2, _)); (id3, (doc3, _))] =>
        sources
        = (NL +:+ "🔹 Source 1 (ID: " +:+ id1 +:+ "):" +:+ NL +:+ "    " +:+ doc1 +:+ NL)
          +:+ (NL +:+ "🔹 Source 2 (ID: " +:+ id2 +:+ "):" +:+ NL +:+ "    " +:+ doc2 +:+ NL)
          +:+ (NL +:+ "🔹 Source 3 (ID: " +:+ id3 +:+ "):" +:+ NL +:+ "    " +:+ doc3 +:+ NL)
    | _ => False
    end
    ∧ output
      = "================================================================================"
        +:+ NL +:+ "Question: " +:+ question +:+ NL
        +:+ "================================================================================"
        +:+ NL +:+ NL +:+ "🧠 Retrieved Documents:" +:+ NL
        +:+ "--------------------------------------------------------------------------------"
        +:+ NL +:+ sources +:+ NL
        +:+ "--------------------------------------------------------------------------------"
        +:+ NL +:+ NL +:+ "🤖 Answer:" +:+ NL
        +:+ "--------------------------------------------------------------------------------"
        +:+ NL +:+ answer +:+ NL
        +:+ "--------------------------------------------------------------------------------"
        +:+ NL +:+ NL
    ∧ _process_question env question w
      = (Returned tt,
         {| w_coll := w_coll w;
            w_log :=
              w_log w
              ++ [StatusLabel "Getting embedding..."; RootUpdate;
                  EmbedRequest "mxbai-embed-large" question; CollectionQuery q_emb 3;
                  StatusLabel "Generating answer from LLM..."; RootUpdate;
                  GenerateRequest "llama3.2" prompt;
                  OutputInsert output;
                  OutputSee; StatusLabel "Ready"; EntryDelete; AskButton true] |}).
Proof.
  intros Hembedded Hsent Hanswer.
  pose proof (process_question_generated env question w q_emb Hembedded) as Hrun.
  cbv zeta in Hrun.
  set (results := nearest env (w_coll w) q_emb 3) in *.
  set (prompt0 := build_prompt (build_context (fst ∘ snd <$> results)) question) in *.
  assert (prompt = prompt0) as Hprompt.
  { destruct (answer_of_reply
                (generate_service env (w_log (generating question q_emb w)) prompt0));
      [| destruct Hrun as (e & title & message & status & Hrun & _)];
      rewrite Hrun in Hsent; simpl in Hsent;
      rewrite !generated_app in Hsent; simpl in Hsent;
      rewrite ?app_nil_r in Hsent; apply app_inv_head in Hsent;
      by injection Hsent. }
  rewrite Hprompt in Hanswer |- *. rewrite Hanswer in Hrun. rewrite Hrun.
  assert (length results ≤ 3)%nat as Hlength
    by (unfold results, nearest; rewrite length_take; lia).
  exists (sources_text 0 results), (answer_output question results answer).
  split; [| split; [| done]].
  - destruct results
      as [|[id1 [doc1 emb1]] [|[id2 [doc2 emb2]] [|[id3 [doc3 emb3]] [|entry more]]]];
      simpl in Hlength; try lia; simpl; rewrite ?append_nil_r, ?append_assoc;
      reflexivity.
  - unfold answer_output, output_head. rewrite !append_assoc. reflexivity.
Qed.

Lemma question_answered_witness :
  embedding_of_reply
    (embed_service env_answering (w_log (getting_embedding (start indexed))) "What is sushi?")
  = Some vector
  ∧ generated (w_log (_process_question env_answering "What is sushi?" (start indexed)).2)
    = generated (w_log (start indexed))
      ++ ["Use the following context to answer the question.

Context:
Sushi is a Japanese dish.

Question: What is sushi?
Answer:"]
  ∧ shown (w_log (_process_question env_answering "What is sushi?" (start indexed)).2)
    = "================================================================================
Question: What is sushi?
================================================================================

🧠 Retrieved Documents:
--------------------------------------------------------------------------------

🔹 Source 1 (ID: a1):
    Sushi is a Japanese dish.

--------------------------------------------------------------------------------

🤖 Answer:
--------------------------------------------------------------------------------
Raw fish on rice.
--------------------------------------------------------------------------------

"
  ∧ errors_shown
      (w_log (_process_question env_answering "What is sushi?" (start indexed)).2) = [].
Proof.
  split; [reflexivity |].
  assert (generated
            (w_log (_process_question env_answering "What is sushi?" (start indexed)).2)
          = generated (w_log (start indexed))
            ++ [build_prompt "Sushi is a Japanese dish." "What is sushi?"]) as Hsent
    by (vm_compute; reflexivity).
  split; [vm_compute; reflexivity |].
  destruct (question_answered env_answering "What is sushi?" (start indexed) vector
              (build_prompt "Sushi is a Japanese dish." "What is sushi?")
              "Raw fish on rice.")
    as (sources & output & Hsources & Houtput & Hrun);
    [reflexivity | exact Hsent | vm_compute; reflexivity |].
  rewrite Hrun.
  change (nearest env_answering (w_coll (start indexed)) vector 3)
    with [("a1", ("Sushi is a Japanese dish.", vector))] in Hsources.
  cbv beta iota in Hsources. subst sources output.
  split; vm_compute; reflexivity.
Defined.

(** X9 (a failed generation request): in a run of [_process_question] that
    posts a prompt to which the generation service does not respond with a
    string, the run returns after one error dialog, one status and the
    enabling of the Ask button; nothing is inserted into the output pane and
    the entry keeps the question.  Dialog and status are those of the first
    matching clause: "Connection Error" for a [ConnectionError], a
    [ConnectTimeout] included, "Timeout Error" for the other timeouts, and
    "Error" with the text of the exception otherwise; for a response that was
    received this text is the HTTP error of an error status, the decoder's
    message for a body that is no JSON, and the message of the [TypeError],
    [KeyError] or [AttributeError] that a body of another shape raises. *)
Theorem generation_failure_reported (env : Env) (question : string) (w : World)
    (q_emb : json) (prompt : string) :
  embedding_of_reply (embed_service env (w_log (getting_embedding w)) question)
  = Some q_emb →
  generated (w_log (_process_question env question w).2)
  = generated (w_log w) ++ [prompt] →
  answer_of_reply (generate_service env (w_log (generating question q_emb w)) prompt)
  = None →
  ∃ title message status,
    _process_question env question w
    = (Returned tt,
       {| w_coll := w_coll w;
          w_log :=
            w_log w
            ++ [StatusLabel "Getting embedding..."; RootUpdate;
                EmbedRequest "mxbai-embed-large" question; CollectionQuery q_emb 3;
                StatusLabel "Generating answer from LLM..."; RootUpdate;
                GenerateRequest "llama3.2" prompt;
                ShowError title message; StatusLabel status; AskButton true] |})
    ∧ match generate_service env (w_log (generating question q_emb w)) prompt with
      | TransportError e =>
          match exc_class e with
          | ConnectionError | ConnectTimeout =>
              title = "Connection Error"
              ∧ message
                = "❌ Error: Cannot connect to Ollama at http://localhost:11434"
                  +:+ NL +:+ "   Please ensure Ollama is running."
              ∧ status = "Error - Connection failed"
          | Timeout | ReadTimeout =>
              title = "Timeout Error" ∧ message = "Request to Ollama timed out"
              ∧ status = "Error - Request timeout"
          | _ =>
              title = "Error" ∧ message = "Unexpected error: " +:+ exc_str e
              ∧ status = "Error - " +:+ exc_str e
          end
      | HttpResponse response =>
          ∃ text,
            title = "Error" ∧ message = "Unexpected error: " +:+ text
            ∧ status = "Error - " +:+ text
            ∧ if is_http_error (status_code response) then
                text
                = pretty (status_code response)
                  +:+ (if status_code response <? 500
                       then " Client Error: " else " Server Error: ")
                  +:+ reason response
                  +:+ " for url: http://localhost:11434/api/generate"
              else
                match body response with
                | Malformed msg => text = msg
                | Parsed (JObj fields) =>
                    match obj_lookup "response" fields with
                    | None => text = "'response'"
                    | Some (JStr _) => False
                    | Some (JObj _) => text = "'dict' object has no attribute 'strip'"
                    | Some (JArr _) => text = "'list' object has no attribute 'strip'"
                    | Some JNull => text = "'NoneType' object has no attribute 'strip'"
                    | Some (JBool _) => text = "'bool' object has no attribute 'strip'"
                    | Some (JInt _) => text = "'int' object has no attribute 'strip'"
                    | Some (JFloat _) => text = "'float' object has no attribute 'strip'"
                    end
                | Parsed (JArr _) =>
                    text = "list indices must be integers or slices, not str"
                | Parsed (JStr _) => text = "string indices must be integers, not 'str'"
                | Parsed JNull => text = "'NoneType' object is not subscriptable"
                | Parsed (JBool _) => text = "'bool' object is not subscriptable"
                | Parsed (JInt _) => text = "'int' object is not subscriptable"
                | Parsed (JFloat _) => text = "'float' object is not subscriptable"
                end
      end.
Proof.
  intros Hembedded Hsent Hanswer.
  pose proof (process_question_generated env question w q_emb Hembedded) as Hrun.
  cbv zeta in Hrun.
  set (prompt0 := build_prompt
                    (build_context (fst ∘ snd <$> nearest env (w_coll w) q_emb 3))
                    question) in *.
  assert (prompt = prompt0) as Hprompt.
  { destruct (answer_of_reply
                (generate_service env (w_log (generating question q_emb w)) prompt0));
      [| destruct Hrun as (e & title & message & status & Hrun & _)];
      rewrite Hrun in Hsent; simpl in Hsent;
      rewrite !generated_app in Hsent; simpl in Hsent;
      rewrite ?app_nil_r in Hsent; apply app_inv_head in Hsent;
      by injection Hsent. }
  rewrite Hprompt in Hanswer |- *. rewrite Hanswer in Hrun.
  destruct Hrun as (e & title & message & status & Hrun & Hreport & Hclass).
  exists title, message, status. split; [exact Hrun |].
  unfold question_failed, except_clauses in Hreport.
  destruct (generate_service env _ prompt0) as [e' | response].
  - subst e'.
    destruct (exc_class e); simpl in Hreport;
      cbv [mbind Py_bind emit record start] in Hreport; simpl in Hreport;
      injection Hreport as <- <- <-; done.
  - destruct Hclass as (Hconnection & Htimeout & Hraised).
    rewrite Hconnection, Htimeout in Hreport.
    cbv [mbind Py_bind emit record start] in Hreport. simpl in Hreport.
    injection Hreport as <- <- <-.
    exists (exc_str e). split; [done |]. split; [done |]. split; [done |].
    unfold answer_of_reply in Hanswer.
    rewrite bind_run in Hraised. unfold raise_for_status in Hraised.
    destruct (is_http_error (status_code response)).
    { by injection Hraised as <-. }
    cbv [mret Py_ret] in Hraised. rewrite bind_run in Hraised.
    unfold response_json in Hraised.
    destruct (body response) as [value | msg]; [| by injection Hraised as <-].
    cbv [mret Py_ret] in Hraised. rewrite bind_run in Hraised.
    destruct value; try (by injection Hraised as <-).
    unfold getitem in Hraised.
    destruct (obj_lookup "response" fields) as [field|]; [| by injection Hraised as <-].
    cbv [mret Py_ret] in Hraised.
    destruct field; try (by injection Hraised as <-). discriminate Hanswer.
Qed.

Lemma generation_failure_reported_witness :
  embedding_of_reply
    (embed_service env_generation_not_found (w_log (getting_embedding (start indexed)))
       "What is sushi?")
  = Some vector
  ∧ generated
      (w_log (_process_question env_generation_not_found "What is sushi?"
                (start indexed)).2)
    = generated (w_log (start indexed))
      ++ [build_prompt "Sushi is a Japanese dish." "What is sushi?"]
  ∧ errors_shown
      (w_log (_process_question env_generation_not_found "What is sushi?"
                (start indexed)).2)
    = [("Error",
        "Unexpected error: 404 Client Error: Not Found for url: http://localhost:11434/api/generate")]
  ∧ shown
      (w_log (_process_question env_generation_not_found "What is sushi?"
                (start indexed)).2)
    = ""
  ∧ ask_button false
      (w_log (_process_question env_generation_not_found "What is sushi?"
                (start indexed)).2)
    = true.
Proof.
  split; [reflexivity |].
  assert (generated
            (w_log (_process_question env_generation_not_found "What is sushi?"
                      (start indexed)).2)
          = generated (w_log (start indexed))
            ++ [build_prompt "Sushi is a Japanese dish." "What is sushi?"]) as Hsent
    by (vm_compute; reflexivity).
  split; [exact Hsent |].
  destruct (generation_failure_reported env_generation_not_found "What is sushi?"
              (start indexed) vector
              (build_prompt "Sushi is a Japanese dish." "What is sushi?"))
    as (title & message & status & Hrun & text & Htitle & Hmessage & Hstatus & Htext);
    [reflexivity | exact Hsent | vm_compute; reflexivity |].
  rewrite Hrun. vm_compute in Htext. subst title message status text.
  repeat split; vm_compute; reflexivity.
Defined.

(** X10 (a question only reads the collection): in every run of
    [_process_question] the collection is left as it was and [collection.add]
    is not called; the embedding service is called once, with the question;
    the collection is queried once, for 3 entries, when the question was
    embedded, and not otherwise. *)
Theorem process_question_reads_only (env : Env) (question : string) (w : World) :
  w_coll (_process_question env question w).2 = w_coll w
  ∧ added (w_log (_process_question env question w).2) = added (w_log w)
  ∧ embedded (w_log (_process_question env question w).2)
    = embedded (w_log w) ++ [question]
  ∧ queried (w_log (_process_question env question w).2)
    = queried (w_log w)
      ++ match embedding_of_reply
                 (embed_service env (w_log (getting_embedding w)) question) with
         | Some q_emb => [(q_emb, 3%nat)]
         | None => []
         end.
Proof.
  destruct (embedding_of_reply _) as [q_emb|] eqn:Hreply.
  - pose proof (process_question_generated env question w q_emb Hreply) as Hrun.
    cbv zeta in Hrun.
    destruct (answer_of_reply _);
      [| destruct Hrun as (e & title & message & status & Hrun & _)];
      rewrite Hrun; simpl;
      rewrite !added_app, !embedded_app, !queried_app; simpl;
      by rewrite ?app_nil_r.
  - destruct (process_question_exits env question w Hreply) as [lines ->]. simpl.
    rewrite !added_app, !embedded_app, !queried_app, added_prints, embedded_prints.
    simpl. rewrite !app_nil_r. repeat split; try done.
    assert (queried (Print <$> lines) = []) as ->
      by (clear; induction lines; simpl; done).
    by rewrite app_nil_r.
Qed.

Lemma ask_question_run (env : Env) (entry : string) (w : World) :
  strip entry ≠ "" →
  ask_question env entry w
  = (Returned tt, (_process_question env (strip entry) (asked (strip entry) w)).2).
Proof.
  intros Hquestion. unfold ask_question.
  by destruct (strip entry) as [|c question] eqn:Hstrip.
Qed.

(** X11 (the Ask button after a question): [ask_question] disables the Ask
    button before it starts the worker, and for a question that is not empty
    the button is enabled again at the end exactly when the question was
    embedded, whether the generation request succeeds or not; when the
    embedding request fails the button stays disabled. *)
Theorem ask_button_after_question (env : Env) (entry : string) (w : World)
    (enabled : bool) :
  strip entry ≠ "" →
  ask_button enabled (w_log (ask_question env entry w).2)
  = match embedding_of_reply
            (embed_service env
               (w_log (getting_embedding (asked (strip entry) w))) (strip entry)) with
    | Some _ => true
    | None => false
    end.
Proof.
  intros Hquestion. rewrite ask_question_run by done. simpl.
  destruct (embedding_of_reply _) as [q_emb|] eqn:Hreply.
  - pose proof (process_question_generated env (strip entry) (asked (strip entry) w)
                  q_emb Hreply) as Hrun.
    cbv zeta in Hrun.
    destruct (answer_of_reply _);
      [| destruct Hrun as (e & title & message & status & Hrun & _)];
      rewrite Hrun; simpl; by rewrite !ask_button_app.
  - destruct (process_question_exits env (strip entry) (asked (strip entry) w) Hreply)
      as [lines ->].
    simpl. rewrite !ask_button_app, ask_button_prints. by simpl.
Qed.

Lemma ask_button_after_question_witness :
  strip " What is sushi? " ≠ ""
  ∧ ask_button true (w_log (ask_question env_timeout " What is sushi? " (start indexed)).2)
    = false
  ∧ ask_button true
      (w_log (ask_question env_generation_timeout " What is sushi? " (start indexed)).2)
    = true.
Proof.
  assert (strip " What is sushi? " ≠ "") as Hquestion by (vm_compute; discriminate).
  split; [exact Hquestion |]. split.
  - rewrite (ask_button_after_question env_timeout " What is sushi? " (start indexed)
               true Hquestion).
    reflexivity.
  - rewrite (ask_button_after_question env_generation_timeout " What is sushi? "
               (start indexed) true Hquestion).
    reflexivity.
Defined.

(** X12 (a question on an empty collection): nothing guards the pipeline
    against an empty collection.  When the question is embedded, the query
    returns no entry, the generation service is still called, with a prompt
    whose context is empty, and an answer is shown without any source. *)
Theorem empty_collection_still_generates (env : Env) (question : string) (w : World)
    (q_emb : json) :
  w_coll w = ∅ →
  embedding_of_reply (embed_service env (w_log (getting_embedding w)) question)
  = Some q_emb →
  nearest env (w_coll w) q_emb 3 = []
  ∧ generated (w_log (_process_question env question w).2)
    = generated (w_log w)
      ++ ["Use the following context to answer the question." +:+ NL +:+ NL
          +:+ "Context:" +:+ NL +:+ NL +:+ NL
          +:+ "Question: " +:+ question +:+ NL +:+ "Answer:"]
  ∧ ∀ answer,
      answer_of_reply
        (generate_service env (w_log (generating question q_emb w))
           (build_prompt "" question)) = Some answer →
      shown (w_log (_process_question env question w).2)
      = shown (w_log w) +:+ answer_output question [] answer.
Proof.
  intros Hempty Hembedded.
  assert (nearest env (w_coll w) q_emb 3 = []) as Hnone.
  { unfold nearest. by rewrite Hempty, map_to_list_empty. }
  pose proof (process_question_generated env question w q_emb Hembedded) as Hrun.
  cbv zeta in Hrun. rewrite Hnone in Hrun.
  change (build_context (fst ∘ snd <$> [])) with "" in Hrun.
  split; [done |]. split.
  - destruct (answer_of_reply _);
      [| destruct Hrun as (e & title & message & status & Hrun & _)];
      rewrite Hrun; simpl; rewrite !generated_app; simpl; rewrite ?app_nil_r;
      reflexivity.
  - intros answer Hanswer. rewrite Hanswer in Hrun. rewrite Hrun. simpl.
    rewrite !shown_app. simpl. by rewrite append_nil_r.
Qed.

Lemma empty_collection_still_generates_witness :
  w_coll (start ∅) = ∅
  ∧ embedding_of_reply
      (embed_service env_answering (w_log (getting_embedding (start ∅))) "What is sushi?")
    = Some vector
  ∧ generated (w_log (_process_question env_answering "What is sushi?" (start ∅)).2)
    = ["Use the following context to answer the question." +:+ NL +:+ NL
       +:+ "Context:" +:+ NL +:+ NL +:+ NL
       +:+ "Question: What is sushi?" +:+ NL +:+ "Answer:"].
Proof.
  split; [reflexivity |]. split; [reflexivity |].
  apply (empty_collection_still_generates env_answering "What is sushi?" (start ∅) vector);
    reflexivity.
Defined.

(** ** Whitespace around the question *)

Lemma space1_byte (c : Ascii.ascii) :
  space1 c = true → (byte c ≤ 32)%N.
Proof.
  unfold space1. cbv zeta.
  rewrite orb_true_iff, !andb_true_iff, !N.leb_le. lia.
Qed.

Lemma space2_after_space1 (c d : Ascii.ascii) : space1 d = true → space2 c d = false.
Proof.
  intros H%space1_byte. unfold space2.
  apply not_true_is_false.
  rewrite andb_true_iff, orb_true_iff, !N.eqb_eq. lia.
Qed.

Lemma space3_after_space1 (c d e : Ascii.ascii) :
  space1 d = true ∨ space1 e = true → space3 c d e = false.
Proof.
  intros H. unfold space3. apply not_true_is_false.
  rewrite !orb_true_iff, !andb_true_iff, !orb_true_iff, !andb_true_iff,
    !N.eqb_eq, !N.leb_le.
  destruct H as [H%space1_byte | H%space1_byte]; lia.
Qed.

(** Blanks that follow a string do not change what [lstrip] removes. *)
Lemma lstrip_app_whitespace (n : nat) (s post : string) :
  (String.length s ≤ n)%nat →
  whitespace_only post = true →
  lstrip (s +:+ post) = match lstrip s with
                        | EmptyString => ""
                        | String c t => String c t +:+ post
                        end.
Proof.
  revert s. induction n as [|n IH]; intros s Hlength Hpost.
  { destruct s; [| simpl in Hlength; lia].
    simpl. by apply lstrip_whitespace_only. }
  destruct s as [|c r]; [simpl; by apply lstrip_whitespace_only |].
  simpl in Hlength. rewrite append_cons. simpl.
  destruct (space1 c) eqn:Hc; [apply IH; [lia | done] |].
  destruct r as [|d r1].
  { change ("" +:+ post) with post.
    destruct post as [|d p1]; [done |].
    simpl in Hpost. apply andb_prop in Hpost as [Hd Hp1].
    rewrite (space2_after_space1 c d Hd).
    destruct p1 as [|e p2]; [done |].
    by rewrite (space3_after_space1 c d e (or_introl Hd)). }
  rewrite append_cons. simpl in Hlength.
  destruct (space2 c d) eqn:Hcd; [apply IH; [lia | done] |].
  destruct r1 as [|e r2].
  { change ("" +:+ post) with post.
    destruct post as [|e p1]; [done |].
    simpl in Hpost. apply andb_prop in Hpost as [He Hp1].
    by rewrite (space3_after_space1 c d e (or_intror He)). }
  rewrite append_cons. simpl in Hlength.
  destruct (space3 c d e) eqn:Hcde; [apply IH; [lia | done] | done].
Qed.

Lemma lstrip_whitespace_app (pre s : string) :
  whitespace_only pre = true → lstrip (pre +:+ s) = lstrip s.
Proof.
  induction pre as [|c pre IH]; [done |].
  intros Hpre. simpl in Hpre. apply andb_prop in Hpre as [Hc Hpre].
  change (String c pre +:+ s) with (String c (pre +:+ s)).
  simpl. rewrite Hc. by apply IH.
Qed.

Lemma rstrip_app_whitespace (s post : string) :
  whitespace_only post = true → rstrip (s +:+ post) = rstrip s.
Proof.
  intros Hpost. induction s as [|c r IH].
  { change ("" +:+ post) with post.
    destruct post as [|c p]; [done |].
    simpl. change (lstrip (String c p) = "" → _) with True.
    pose proof (lstrip_whitespace_only (String c p) Hpost) as Hnone.
    simpl in Hnone. by rewrite Hnone. }
  rewrite append_cons.
  change (rstrip (String c (r +:+ post)))
    with (match lstrip (String c (r +:+ post)) with
          | EmptyString => EmptyString
          | String _ _ => String c (rstrip (r +:+ post))
          end).
  change (rstrip (String c r))
    with (match lstrip (String c r) with
          | EmptyString => EmptyString
          | String _ _ => String c (rstrip r)
          end).
  rewrite <- append_cons.
  rewrite (lstrip_app_whitespace (String.length (String c r)) (String c r) post)
    by done.
  destruct (lstrip (String c r)); [done |]. rewrite append_cons. by rewrite IH.
Qed.

Lemma strip_whitespace_around (pre s post : string) :
  whitespace_only pre = true →
  whitespace_only post = true →
  strip (pre +:+ s +:+ post) = strip s.
Proof.
  intros Hpre Hpost. unfold strip.
  rewrite lstrip_whitespace_app by done.
  rewrite (lstrip_app_whitespace (String.length s) s post) by done.
  destruct (lstrip s) as [|c t]; [done |].
  by apply rstrip_app_whitespace.
Qed.

(** X13 (whitespace around the question): blanks, tabs and line ends before
    and after the text of the entry make no difference to [ask_question]: the
    same events follow, with the same requests. *)
Theorem ask_question_ignores_whitespace (env : Env) (pre entry post : string)
    (w : World) :
  whitespace_only pre = true →
  whitespace_only post = true →
  ask_question env (pre +:+ entry +:+ post) w = ask_question env entry w.
Proof.
  intros Hpre Hpost. unfold ask_question.
  by rewrite strip_whitespace_around.
Qed.

Lemma ask_question_ignores_whitespace_witness :
  whitespace_only ("  " +:+ NL) = true
  ∧ whitespace_only " " = true
  ∧ ask_question env_answering (("  " +:+ NL) +:+ "What is sushi?" +:+ " ") (start indexed)
    = ask_question env_answering "What is sushi?" (start indexed).
Proof.
  split; [reflexivity |]. split; [reflexivity |].
  apply (ask_question_ignores_whitespace env_answering ("  " +:+ NL) "What is sushi?" " "
           (start indexed));
    reflexivity.
Defined.

(** ** The window *)

Lemma shown_prints (lines : list string) : shown (Print <$> lines) = "".
Proof. induction lines as [|l lines IH]; simpl; done. Qed.

(** The events of one run of [_process_question]. *)
Lemma process_question_events (env : Env) (question : string) (w : World) :
  ∃ events,
    w_log (_process_question env question w).2 = w_log w ++ events
    ∧ w_coll (_process_question env question w).2 = w_coll w
    ∧ added events = []
    ∧ embedded events = [question]
    ∧ shown events = match answered env question w with
                     | Some output => output
                     | None => ""
                     end.
Proof.
  unfold answered.
  destruct (embedding_of_reply _) as [q_emb|] eqn:Hreply.
  - pose proof (process_question_generated env question w q_emb Hreply) as Hrun.
    cbv zeta in Hrun. cbv zeta.
    destruct (answer_of_reply _);
      [| destruct Hrun as (e & title & message & status & Hrun & _)];
      rewrite Hrun; eexists; (split; [reflexivity |]); simpl;
      by rewrite ?append_nil_r.
  - destruct (process_question_exits env question w Hreply) as [lines ->].
    exists (StatusLabel "Getting embedding..." :: RootUpdate
            :: EmbedRequest EMBED_MODEL question :: (Print <$> lines)).
    simpl. rewrite <- !app_assoc. simpl.
    by rewrite added_prints, embedded_prints, shown_prints.
Qed.

(** The events of one call of [ask_question]. *)
Lemma ask_question_events (env : Env) (entry : string) (w : World) :
  ∃ events,
    w_log (ask_question env entry w).2 = w_log w ++ events
    ∧ w_coll (ask_question env entry w).2 = w_coll w
    ∧ added events = []
    ∧ embedded events = match strip entry with
                        | EmptyString => []
                        | String c q => [String c q]
                        end
    ∧ shown events = match strip entry with
                     | EmptyString => ""
                     | String c q =>
                         match answered env (String c q) (asked (String c q) w) with
                         | Some output => output
                         | None => ""
                         end
                     end.
Proof.
  destruct (strip entry) as [|c q] eqn:Hstrip.
  - exists [ShowWarning "Warning" "Please enter a question!"].
    unfold ask_question. rewrite Hstrip. done.
  - rewrite ask_question_run by (by rewrite Hstrip). rewrite Hstrip. simpl.
    destruct (process_question_events env (String c q) (asked (String c q) w))
      as (events & Hlog & Hcoll & Hadded & Hembedded & Hshown).
    exists ([AskButton false;
             StatusLabel "Processing... retrieving documents and generating answer";
             RootUpdate; ThreadStart (String c q)] ++ events).
    rewrite Hlog, Hcoll. simpl. rewrite <- !app_assoc. simpl.
    by rewrite Hadded, Hembedded, Hshown.
Qed.


Lemma gui_step_keeps (env : Env) (g : Gui) (action : Action) :
  w_coll (g_world (gui_step env g action)) = w_coll (g_world g)
  ∧ added (w_log (g_world (gui_step env g action))) = added (w_log (g_world g)).
Proof.
  destruct action as [entry | | file_path failure | text]; simpl.
  - destruct (ask_question_events env entry (g_world g))
      as (events & Hlog & Hcoll & Hadded & _ & _).
    rewrite Hlog, Hcoll, added_app, Hadded. by rewrite app_nil_r.
  - rewrite added_app. simpl. by rewrite app_nil_r.
  - unfold save_output. destruct file_path; [done |]. destruct failure; [done |].
    simpl. rewrite added_app. simpl. by rewrite app_nil_r.
  - done.
Qed.

Lemma session_keeps (env : Env) (actions : list Action) (g : Gui) :
  w_coll (g_world (session env actions g)) = w_coll (g_world g)
  ∧ added (w_log (g_world (session env actions g))) = added (w_log (g_world g)).
Proof.
  unfold session. revert g. induction actions as [|action actions IH]; intros g; [done |].
  simpl. destruct (IH (gui_step env g action)) as [-> ->].
  apply gui_step_keeps.
Qed.

(** X15 (the collection is written at startup only): the script returns what
    the ingestion step returns; when that step does not return, no window is
    opened; and whatever the user does in the two windows, asking, clearing,
    saving, editing, the collection stays as the ingestion step left it and
    [collection.add] is never called again. *)
Theorem script_ingests_once (env : Env) (food_data : list Item) (coll : Collection)
    (files : gmap string string) (first second : list Action) :
  (script env food_data coll files first second).1 = (run_ingestion env food_data coll).1
  ∧ w_coll (g_world (script env food_data coll files first second).2)
    = w_coll (run_ingestion env food_data coll).2
  ∧ added (w_log (g_world (script env food_data coll files first second).2))
    = added (w_log (run_ingestion env food_data coll).2)
  ∧ match (run_ingestion env food_data coll).1 with
    | Returned _ => True
    | _ =>
        (script env food_data coll files first second).2
        = open_window (run_ingestion env food_data coll).2 files []
    end.
Proof.
  unfold script.
  destruct (run_ingestion env food_data coll) as [[[]|e|code] w]; simpl; try done.
  split; [done |].
  destruct (session_keeps env second
              (open_window (g_world (session env first (open_window w files [])))
                 (g_files (session env first (open_window w files [])))
                 (g_infos (session env first (open_window w files []))))) as [-> ->].
  simpl.
  destruct (session_keeps env first (open_window w files [])) as [-> ->].
  done.
Qed.

Lemma session_app (env : Env) (l1 l2 : list Action) (g : Gui) :
  session env (l1 ++ l2) g = session env l2 (session env l1 g).
Proof. unfold session. apply foldl_app. Qed.

Lemma gui_step_files (env : Env) (g : Gui) (action : Action) (path : string) :
  action ≠ Save path None →
  g_files (gui_step env g action) !! path = g_files g !! path.
Proof.
  intros Hother. destruct action as [entry | | file_path failure | text]; try done.
  simpl. unfold save_output.
  destruct file_path as [|c file_path]; [done |]. destruct failure; [done |].
  simpl. apply lookup_insert_ne. intros Hsame. apply Hother. by rewrite Hsame.
Qed.

Lemma session_files (env : Env) (actions : list Action) (g : Gui) (path : string) :
  Save path None ∉ actions →
  g_files (session env actions g) !! path = g_files g !! path.
Proof.
  unfold session. revert g.
  induction actions as [|action actions IH]; intros g Hnone; [done |].
  simpl. rewrite IH by (intros Hin; apply Hnone; by right).
  apply gui_step_files. intros ->. apply Hnone. by left.
Qed.

(** The pane is written by the worker of a question only: without one, what
    a session leaves in it does not depend on the services. *)
Lemma session_pane_no_question (env1 env2 : Env) (actions : list Action) (g : Gui) :
  questions actions = [] →
  g_pane (session env1 actions g) = g_pane (session env2 actions g)
  ∧ g_files (session env1 actions g) = g_files (session env2 actions g).
Proof.
  unfold session, questions.
  assert (∀ g1 g2, g_pane g1 = g_pane g2 → g_files g1 = g_files g2 →
            omap (λ action,
                    match action with
                    | Ask entry =>
                        match strip entry with
                        | EmptyString => None
                        | String c q => Some (String c q)
                        end
                    | _ => None
                    end) actions = [] →
            g_pane (foldl (gui_step env1) g1 actions)
            = g_pane (foldl (gui_step env2) g2 actions)
            ∧ g_files (foldl (gui_step env1) g1 actions)
              = g_files (foldl (gui_step env2) g2 actions)) as Hgeneral.
  { induction actions as [|action actions IH]; intros g1 g2 Hpane Hfiles Hnone; [done |].
    simpl in *.
    destruct action as [entry | | file_path failure | text]; simpl in *.
    - destruct (strip entry) eqn:Hstrip; [| discriminate Hnone].
      apply IH; [| done | done].
      unfold gui_ask. simpl. unfold ask_question. rewrite Hstrip. simpl.
      rewrite !drop_app_length. simpl. by rewrite Hpane.
    - by apply IH.
    - apply IH; [| | done]; unfold save_output;
        destruct file_path; [done | | done |]; destruct failure; simpl; congruence.
    - by apply IH. }
  by apply Hgeneral.
Qed.

(** X16 (what "Save Output" writes): when no question has been asked in the
    window so far, a save to a chosen path that can be opened writes the text
    of the pane followed by a newline, replacing what the file held, and the
    file keeps that text through everything the user does afterwards, asking
    included, short of saving to the same path again.  The text of the pane
    is then what the user left in it, whatever the services answer.  Right
    after "Clear" the file written holds the newline alone.  A cancelled
    dialog and a file that cannot be opened change nothing: no file, no
    dialog, no status. *)
Theorem saved_file_kept (env env' : Env) (before after : list Action) (path : string)
    (g : Gui) :
  path ≠ "" →
  questions before = [] →
  Save path None ∉ after →
  g_files (session env (before ++ Save path None :: after) g) !! path
  = Some (g_pane (session env' before g) +:+ NL)
  ∧ g_files (session env (before ++ Clear :: Save path None :: after) g) !! path
    = Some NL
  ∧ (∀ failure, session env (before ++ [Save "" failure]) g = session env before g)
  ∧ (∀ e, session env (before ++ [Save path (Some e)]) g = session env before g).
Proof.
  intros Hpath Hnone Hafter.
  assert (∀ g0, g_files (gui_step env g0 (Save path None)) !! path
                = Some (g_pane g0 +:+ NL)) as Hsave.
  { intros g0. simpl. unfold save_output.
    destruct path as [|c path]; [done |]. simpl. apply lookup_insert_eq. }
  split; [| split; [| split]].
  - rewrite session_app.
    change (session env (Save path None :: after) (session env before g))
      with (session env after (gui_step env (session env before g) (Save path None))).
    rewrite session_files by done.
    rewrite <- (proj1 (session_pane_no_question env env' before g Hnone)). apply Hsave.
  - rewrite session_app.
    change (session env (Clear :: Save path None :: after) (session env before g))
      with (session env after
              (gui_step env (gui_step env (session env before g) Clear)
                 (Save path None))).
    rewrite session_files by done. by rewrite Hsave.
  - intros failure. by rewrite session_app.
  - intros e. rewrite session_app. simpl. unfold session at 1. simpl.
    unfold save_output. by destruct path.
Qed.

Lemma saved_file_kept_witness :
  "notes.txt" ≠ ""
  ∧ questions [Ask "  "; Edit "Sushi, then ramen."] = []
  ∧ (Save "notes.txt" None ∉ [Ask "What is ramen?"; Clear; Save "other.txt" None])
  ∧ g_files
      (session env_answering
         ([Ask "  "; Edit "Sushi, then ramen."] ++ Save "notes.txt" None
            :: [Ask "What is ramen?"; Clear; Save "other.txt" None])
         (open_window (start indexed) ∅ [])) !! "notes.txt"
    = Some "Sushi, then ramen.
".
Proof.
  assert ("notes.txt" ≠ "") as Hpath by discriminate.
  assert (questions [Ask "  "; Edit "Sushi, then ramen."] = []) as Hnone
    by (vm_compute; reflexivity).
  assert (Save "notes.txt" None ∉ [Ask "What is ramen?"; Clear; Save "other.txt" None])
    as Hafter.
  { intros Hin. repeat (apply elem_of_cons in Hin as [Hin | Hin]; [discriminate |]).
    by apply elem_of_nil in Hin. }
  split; [exact Hpath |]. split; [exact Hnone |]. split; [exact Hafter |].
  rewrite (proj1 (saved_file_kept env_answering env_timeout
                    [Ask "  "; Edit "Sushi, then ramen."]
                    [Ask "What is ramen?"; Clear; Save "other.txt" None]
                    "notes.txt" (open_window (start indexed) ∅ []) Hpath Hnone Hafter)).
  vm_compute. reflexivity.
Defined.

(** ** Ingestion, then retrieval *)

Lemma nearest_stored (env : Env) (coll : Collection) (q : json) (k : nat)
    (id doc : string) (emb : json) :
  (id, (doc, emb)) ∈ nearest env coll q k → coll !! id = Some (doc, emb).
Proof.
  unfold nearest. intros Hin.
  apply elem_of_map_to_list. rewrite <- (merge_sort_Permutation (closer env q)).
  rewrite <- (take_drop k (merge_sort _ _)). apply elem_of_app. by left.
Qed.

(** X18 (what was ingested is what is retrieved): after a run of the
    ingestion step, whatever its outcome, every source a query returns is an
    entry the collection held before the run, unchanged, or carries the id and
    the original text of a record of the corpus that was not stored before,
    never its enriched text when that differs. *)
Theorem ingested_then_retrieved (env : Env) (food_data : list Item)
    (coll : Collection) (q : json) (k : nat) (id doc : string) (emb : json) :
  (id, (doc, emb)) ∈ nearest env (w_coll (run_ingestion env food_data coll).2) q k →
  coll !! id = Some (doc, emb)
  ∨ coll !! id = None
    ∧ ∃ item,
        item ∈ food_data ∧ id = item_id item ∧ doc = item_text item
        ∧ (is_Some (item_region item) ∨ is_Some (item_type item) →
           doc ≠ enriched_text item).
Proof.
  intros Hin. apply nearest_stored in Hin.
  destruct (run_ingestion_loop env food_data coll) as [[Hnew Hrun] | [Hnew Hloop]].
  { rewrite Hrun in Hin. by left. }
  destruct (loop_run_entries _ _ _ _ _ Hloop _ _ _ Hin)
    as [Hold | (Hnone & item & Hitem & -> & -> & _)].
  { by left. }
  right. split; [done |]. exists item.
  split; [by apply elem_of_new_items in Hitem as [_ ?] |].
  split; [done |]. split; [done |].
  intros Hpresent Hsame. symmetry in Hsame. revert Hsame.
  by apply enriched_text_differs.
Qed.

Lemma ingested_then_retrieved_witness :
  ("a2", ("Ramen is a noodle soup.", JArr [JInt 0]))
  ∈ nearest env_ranking
      (w_coll (run_ingestion env_ranking [sushi; ramen; bread] on_a_line).2)
      (JArr [JInt 0]) 3
  ∧ on_a_line !! "a2" = None
  ∧ ∃ item,
      item ∈ [sushi; ramen; bread] ∧ "a2" = item_id item
      ∧ "Ramen is a noodle soup." = item_text item
      ∧ (is_Some (item_region item) ∨ is_Some (item_type item) →
         "Ramen is a noodle soup." ≠ enriched_text item).
Proof.
  assert (("a2", ("Ramen is a noodle soup.", JArr [JInt 0]))
          ∈ nearest env_ranking
              (w_coll (run_ingestion env_ranking [sushi; ramen; bread] on_a_line).2)
              (JArr [JInt 0]) 3) as Hin.
  { apply (list_elem_of_lookup_2 _ 2%nat). vm_compute. reflexivity. }
  split; [exact Hin |].
  destruct (ingested_then_retrieved env_ranking [sushi; ramen; bread] on_a_line
              (JArr [JInt 0]) 3 "a2" "Ramen is a noodle soup." (JArr [JInt 0]) Hin)
    as [Hold | Hnew].
  - vm_compute in Hold. discriminate Hold.
  - exact Hnew.
Defined.
